(** * PaperMC-Update: the server updater of [server_update.py]

    A shallow embedding of the updater script: the Python primitives it
    leans on, the process state it reads and writes (console, standard
    input, the three files of an update, the remote API), and the methods
    of its three classes [Update], [FileUtil] and [ServerUpdater] and the
    script that drives them, each as a computation in a state-and-exception
    monad.  The second half of the file states and proves the properties
    of the install sequence, the configuration reader, the update check,
    the download loop and the selection logic, and then those of what
    surrounds them: the recovery, the API requests, the downloads that
    fail, the prompts, start-up and the script. *)

From Stdlib Require Import ZArith List String Ascii Bool Lia.
From Stdlib Require Import DecimalString DecimalZ.
From Stdlib Require DecimalPos.
Import ListNotations.

Local Open Scope string_scope.
Local Open Scope Z_scope.

(** ** Python values and primitives *)

Definition bytes := list Byte.byte.

(** Exceptions the script can meet.  [HTTPError] is a subclass of
    [URLError]; [OSError] stands for every operating-system failure other
    than a missing file (permissions, full disk, busy file). *)
Inductive exn : Type :=
| URLError (reason : string)
| HTTPError (code : Z) (reason : string)
| FileNotFoundError (msg : string)
| OSError (msg : string)
| KeyError (key : string)
| TypeError (msg : string)
| ValueError (msg : string)
| IndexError (msg : string)
| AttributeError (msg : string)
| JSONDecodeError (msg : string)
| IncompleteRead (msg : string)
| EOFError.

(** [isinstance(e, URLError)] *)
Definition is_URLError (e : exn) : bool :=
  match e with
  | URLError _ | HTTPError _ _ => true
  | _ => false
  end.

(** [isinstance(e, FileNotFoundError)] *)
Definition is_FileNotFoundError (e : exn) : bool :=
  match e with
  | FileNotFoundError _ => true
  | _ => false
  end.

(** [str(z)] for an integer *)
Definition str_of_Z (z : Z) : string := NilZero.string_of_int (Z.to_int z).

Definition str_of_nat (n : nat) : string := str_of_Z (Z.of_nat n).

(** [str(exc)] *)
Definition str_of_exn (e : exn) : string :=
  match e with
  | URLError r => "<urlopen error " ++ r ++ ">"
  | HTTPError c r => "HTTP Error " ++ str_of_Z c ++ ": " ++ r
  | FileNotFoundError m | OSError m | TypeError m | ValueError m
  | IndexError m | AttributeError m | JSONDecodeError m
  | IncompleteRead m => m
  | KeyError k => "'" ++ k ++ "'"
  | EOFError => "EOF when reading a line"
  end.

(** [exc.reason] and [exc.code], where the attribute exists *)
Definition reason_of (e : exn) : option string :=
  match e with
  | URLError r | HTTPError _ r => Some r
  | _ => None
  end.

Definition code_of (e : exn) : option Z :=
  match e with
  | HTTPError c _ => Some c
  | _ => None
  end.

Definition nl : string := String (ascii_of_nat 10) "".
Definition cr : string := String (ascii_of_nat 13) "".

(** [c * n] for a one-character string *)
Fixpoint str_repeat (c : string) (n : nat) : string :=
  match n with
  | O => ""
  | S k => c ++ str_repeat c k
  end.

(** [s.split(sep, 1)] for a one-character separator: one element when the
    separator is absent, two otherwise. *)
Fixpoint split_once (sep : ascii) (s : string) : list string :=
  match s with
  | EmptyString => [""]
  | String c rest =>
      if Ascii.eqb c sep then [""; rest]
      else match split_once sep rest with
           | hd :: tl => String c hd :: tl
           | [] => [String c ""]
           end
  end.

(** [s.split(sep)] for a one-character separator *)
Fixpoint split_all (sep : ascii) (s : string) : list string :=
  match s with
  | EmptyString => [""]
  | String c rest =>
      if Ascii.eqb c sep then "" :: split_all sep rest
      else match split_all sep rest with
           | hd :: tl => String c hd :: tl
           | [] => [String c ""]
           end
  end.

(** Index normalisation of a slice bound, as Python does it. *)
Definition slice_bound (len i : Z) : Z :=
  if i <? 0 then Z.max 0 (i + len) else Z.min i len.

(** [s[start:stop]] *)
Definition py_slice (s : string) (start stop : Z) : string :=
  let len := Z.of_nat (String.length s) in
  let a := slice_bound len start in
  let b := slice_bound len stop in
  substring (Z.to_nat a) (Z.to_nat (b - a)) s.

(** The white space [int] strips from an ASCII string: tab, line feed,
    vertical tab, form feed, carriage return and space. *)
Definition is_space (c : ascii) : bool :=
  let n := nat_of_ascii c in
  (((9 <=? n) && (n <=? 13)) || (n =? 32))%nat.

Fixpoint lstrip (s : string) : string :=
  match s with
  | String c rest => if is_space c then lstrip rest else s
  | EmptyString => EmptyString
  end.

Fixpoint rstrip (s : string) : string :=
  match s with
  | EmptyString => EmptyString
  | String c rest =>
      match rstrip rest with
      | EmptyString => if is_space c then EmptyString else String c EmptyString
      | r => String c r
      end
  end.

Definition digit_of (c : ascii) : option Z :=
  let n := nat_of_ascii c in
  if ((48 <=? n) && (n <=? 57))%nat then Some (Z.of_nat n - 48) else None.

(** The digits of an integer literal: at least one digit, single
    underscores allowed between digits only. *)
Fixpoint parse_digits (s : string) (acc : Z) (after_digit : bool) : option Z :=
  match s with
  | EmptyString => if after_digit then Some acc else None
  | String c rest =>
      match digit_of c with
      | Some d => parse_digits rest (10 * acc + d) true
      | None =>
          if Ascii.eqb c "_"%char && after_digit
          then match rest with
               | EmptyString => None
               | _ => parse_digits rest acc false
               end
          else None
      end
  end.

(** [int(s)] on an ASCII string: [None] where Python raises
    [ValueError].  Strings are taken to be ASCII throughout: the digits
    and white space of other scripts, which [int] also accepts, are not
    modelled. *)
Definition int_of_str (s : string) : option Z :=
  match rstrip (lstrip s) with
  | String "-" rest => option_map Z.opp (parse_digits rest 0 false)
  | String "+" rest => parse_digits rest 0 false
  | t => parse_digits t 0 false
  end.

(** [ceil(a / b)] for a positive [b].  Python divides in floating point;
    for [0 <= a < 2^53] and the block size of the script the quotient
    rounds to a value with the same ceiling, so the integer ceiling is
    what [ceil] returns.  From [a = 9 * 2^50] on the rounded quotient can
    be an integer where the exact one is not, and the two differ: the
    properties of the download loop are stated for lengths below 2^53. *)
Definition ceil_div (a b : Z) : Z := - ((- a) / b).

(** JSON documents as [json.load] returns them. *)
#[warnings="-register-all"]
Inductive json : Type :=
| JNull
| JBool (b : bool)
| JInt (z : Z)
| JFloat (literal : string)
| JStr (s : string)
| JList (l : list json)
| JDict (kv : list (string * json)).

(** [str(type(v))] *)
Definition type_repr (j : json) : string :=
  match j with
  | JNull => "<class 'NoneType'>"
  | JBool _ => "<class 'bool'>"
  | JInt _ => "<class 'int'>"
  | JFloat _ => "<class 'float'>"
  | JStr _ => "<class 'str'>"
  | JList _ => "<class 'list'>"
  | JDict _ => "<class 'dict'>"
  end.

Fixpoint assoc (k : string) (kv : list (string * json)) : option json :=
  match kv with
  | [] => None
  | (k', v) :: tl => if String.eqb k k' then Some v else assoc k tl
  end.

(** ** Results and the process state *)

Inductive result (A : Type) : Type :=
| Return (a : A)
| Raise (e : exn).
Arguments Return {A} a.
Arguments Raise {A} e.

(** [data[key]] with a string key *)
Definition getitem (j : json) (key : string) : result json :=
  match j with
  | JDict kv =>
      match assoc key kv with
      | Some v => Return v
      | None => Raise (KeyError key)
      end
  | JList _ => Raise (TypeError "list indices must be integers or slices, not str")
  | JStr _ => Raise (TypeError "string indices must be integers")
  | JNull => Raise (TypeError "'NoneType' object is not subscriptable")
  | JBool _ => Raise (TypeError "'bool' object is not subscriptable")
  | JInt _ => Raise (TypeError "'int' object is not subscriptable")
  | JFloat _ => Raise (TypeError "'float' object is not subscriptable")
  end.

(** What reaches the terminal, one entry per call. *)
Inductive entry : Type :=
| Print (text : string)          (* print(text) *)
| StdoutWrite (text : string)    (* sys.stdout.write(text) *)
| StdoutFlush                    (* sys.stdout.flush() *)
| Traceback (e : exn)            (* traceback.print_exc() *)
| Prompt (text : string).        (* the prompt of input(text) *)

(** The three files of an update.  The temporary directory is created
    fresh for each attempt, so its two entries never alias the target. *)
Inductive path : Type := Target | Backup | DownloadData.

Definition path_eqb (p q : path) : bool :=
  match p, q with
  | Target, Target | Backup, Backup | DownloadData, DownloadData => true
  | _, _ => false
  end.

(** The calls the script makes on the operating system and the network,
    whether or not they succeed. *)
Inductive call : Type :=
| Urlopen (url : string)           (* urllib.request.urlopen *)
| Read (amt : nat)                 (* data.read *)
| Copy (src dst : path)            (* shutil.copyfile *)
| Remove (p : path)                (* os.remove *)
| Open (p : path)                  (* open(p, 'ba') *)
| Write (p : path) (data : bytes)  (* file.write *)
| Cleanup.                         (* TemporaryDirectory.cleanup *)

(** What the operating system does to the next file operation: let it
    run, refuse it before it touches anything, or interrupt it after
    [written] bytes reached the destination. *)
Inductive fault : Type :=
| NoFault
| FailBefore (e : exn)
| FailPartial (e : exn) (written : nat).

(** The remote side of an API listing request.  [urlopen] raises; or the
    request opens and [json.loads(data.read())] raises, or gives a
    document that holds the list of identifiers (newest first); or the
    request opens and the reply is read and decoded, and taking the list
    from the document raises. *)
Inductive fetch : Type :=
| OpenFails (e : exn)
| Opened (decoded : result (list string))
| Misshapen (e : exn).

(** [json.loads(data.read())] on an opened reply: the document, known by
    what taking the list from it gives. *)
Definition read_json (data : fetch) : result (result (list string)) :=
  match data with
  | OpenFails e | Opened (Raise e) => Raise e
  | Opened (Return ids) => Return (Return ids)
  | Misshapen e => Return (Raise e)
  end.

(** The remote side of a download request. *)
Record reply : Type := mkReply {
  content_length : option string;     (* the content-length header *)
  body : bytes;                       (* the bytes the server sends *)
  read_fault : option (nat * exn)     (* the read that fails, if any *)
}.

(** An open response being read: what is still unread, how many reads
    were made, and the read that will fail. *)
Record socket : Type := mkSocket {
  unread : bytes;
  reads : nat;
  fails_at : option (nat * exn)
}.

Inductive artifact : Type :=
| DlOpenFails (e : exn)
| DlOpened (r : reply).

(** The local configuration file as [os.path.isfile], [open] and
    [json.load] see it. *)
Inductive config_file : Type :=
| NotAFile
| LoadRaises (e : exn)
| Loads (doc : json).

(** An installed build number: an integer from the configuration file or
    the command-line default, a string from the command line or from a
    previous selection. *)
Inductive buildid : Type :=
| BInt (z : Z)
| BStr (s : string).

(** [str(buildnum)] *)
Definition str_of_buildid (b : buildid) : string :=
  match b with
  | BInt z => str_of_Z z
  | BStr s => s
  end.

(** The fields of a [FileUtil] object *)
Record FileUtil_obj : Type := mkFileUtil {
  fu_path : string;                 (* self.path *)
  fu_temp : option string;          (* self.temp, by its name *)
  fu_config_default : string        (* self.config_default *)
}.

(** The fields of a [ServerUpdater] object *)
Record ServerUpdater_obj : Type := mkServerUpdater {
  su_version : string;                    (* self.version *)
  su_buildnum : buildid;                  (* self.buildnum *)
  su_available_versions : list string;    (* self._available_versions *)
  su_prompt : bool;                       (* self.prompt *)
  su_config_file : option string;         (* self.config_file *)
  su_fileutil : FileUtil_obj              (* self.fileutil *)
}.

Record world : Type := mkWorld {
  quiet : bool;                           (* args.quiet *)
  stdin : list string;                    (* the lines input() will read *)
  listing_at : string -> fetch;           (* the API, by URL *)
  artifact_at : string -> artifact;       (* the download endpoint, by URL *)
  config_at : string -> config_file;      (* configuration files, by path *)
  faults : list fault;                    (* the fate of each file operation *)
  console : list entry;                   (* terminal output, oldest first *)
  calls : list call;                      (* calls made, oldest first *)
  files : path -> option bytes;           (* file contents *)
  tmp_serial : nat;                       (* temporary directories made *)
  sock : socket;                          (* the response being downloaded *)
  self : ServerUpdater_obj                (* the updater object *)
}.

Definition set_quiet (q : bool) (w : world) : world :=
  mkWorld q (stdin w) (listing_at w) (artifact_at w) (config_at w)
          (faults w) (console w) (calls w) (files w) (tmp_serial w) (sock w) (self w).

Definition set_stdin (i : list string) (w : world) : world :=
  mkWorld (quiet w) i (listing_at w) (artifact_at w) (config_at w)
          (faults w) (console w) (calls w) (files w) (tmp_serial w) (sock w) (self w).

Definition set_faults (f : list fault) (w : world) : world :=
  mkWorld (quiet w) (stdin w) (listing_at w) (artifact_at w) (config_at w)
          f (console w) (calls w) (files w) (tmp_serial w) (sock w) (self w).

Definition set_console (c : list entry) (w : world) : world :=
  mkWorld (quiet w) (stdin w) (listing_at w) (artifact_at w) (config_at w)
          (faults w) c (calls w) (files w) (tmp_serial w) (sock w) (self w).

Definition set_calls (r : list call) (w : world) : world :=
  mkWorld (quiet w) (stdin w) (listing_at w) (artifact_at w) (config_at w)
          (faults w) (console w) r (files w) (tmp_serial w) (sock w) (self w).

Definition set_files (f : path -> option bytes) (w : world) : world :=
  mkWorld (quiet w) (stdin w) (listing_at w) (artifact_at w) (config_at w)
          (faults w) (console w) (calls w) f (tmp_serial w) (sock w) (self w).

Definition set_tmp_serial (n : nat) (w : world) : world :=
  mkWorld (quiet w) (stdin w) (listing_at w) (artifact_at w) (config_at w)
          (faults w) (console w) (calls w) (files w) n (sock w) (self w).

Definition set_sock (k : socket) (w : world) : world :=
  mkWorld (quiet w) (stdin w) (listing_at w) (artifact_at w) (config_at w)
          (faults w) (console w) (calls w) (files w) (tmp_serial w) k (self w).

Definition set_self (s : ServerUpdater_obj) (w : world) : world :=
  mkWorld (quiet w) (stdin w) (listing_at w) (artifact_at w) (config_at w)
          (faults w) (console w) (calls w) (files w) (tmp_serial w) (sock w) s.

(** ** The monad: state threaded through, exceptions propagated *)

Definition M (A : Type) : Type := world -> result A * world.

Definition ret {A} (a : A) : M A := fun w => (Return a, w).

Definition raise {A} (e : exn) : M A := fun w => (Raise e, w).

Definition bind {A B} (m : M A) (k : A -> M B) : M B :=
  fun w =>
    match m w with
    | (Return a, w') => k a w'
    | (Raise e, w') => (Raise e, w')
    end.

(** [try: m  except Exception as e: h e] *)
Definition try_except {A} (m : M A) (h : exn -> M A) : M A :=
  fun w =>
    match m w with
    | (Return a, w') => (Return a, w')
    | (Raise e, w') => h e w'
    end.

Declare Scope py_scope.
Delimit Scope py_scope with py.
Notation "x <- m ;; k" := (bind m (fun x => k))
  (at level 61, m at next level, right associativity) : py_scope.
Notation "m ;; k" := (bind m (fun _ => k))
  (at level 61, right associativity) : py_scope.
Local Open Scope py_scope.

Definition get {A} (f : world -> A) : M A := fun w => (Return (f w), w).

Definition modify (f : world -> world) : M unit := fun w => (Return tt, f w).

Definition lift {A} (r : result A) : M A := fun w => (r, w).

Definition emit (e : entry) : M unit :=
  modify (fun w => set_console (console w ++ [e]) w).

Definition record (c : call) : M unit :=
  modify (fun w => set_calls (calls w ++ [c]) w).

(** [if not args.quiet: m] *)
Definition unless_quiet (m : M unit) : M unit :=
  fun w => if negb (quiet w) then m w else (Return tt, w).

(** [print(text)] *)
Definition print (text : string) : M unit := emit (Print text).

(** [x[0]] on a list *)
Definition first {A} (l : list A) : result A :=
  match l with
  | x :: _ => Return x
  | [] => Raise (IndexError "list index out of range")
  end.

(** [input(text)]: the prompt is shown, the next line is read; at the
    end of standard input Python raises [EOFError]. *)
Definition input (text : string) : M string :=
  emit (Prompt text) ;;
  i <- get stdin ;;
  match i with
  | line :: rest => modify (set_stdin rest) ;; ret line
  | [] => raise EOFError
  end.

(** ** Module-level functions *)

(** [output(text)] *)
Definition output (text : string) : M unit :=
  unless_quiet (print text).

Definition rule : string :=
  "+==================================================+".

(** [error_report(exc, net)] *)
Definition error_report (exc : exn) (net : bool) : M unit :=
  print rule ;;
  print "  [ --== The Following Error Has Occurred: ==-- ]" ;;
  print rule ;;
  print ("Error Name: " ++ str_of_exn exc) ;;
  print rule ;;
  print "Full Traceback:" ;;
  emit (Traceback exc) ;;
  (if net then
     print rule ;;
     print "Extra Network Information:" ;;
     match reason_of exc with
     | Some r =>
         print "We failed to reach the server." ;;
         print ("Reason: " ++ r)
     | None => ret tt
     end ;;
     match code_of exc with
     | Some c =>
         print "The server could not fulfill the request." ;;
         print ("Error code: " ++ str_of_Z c)
     | None => ret tt
     end
   else ret tt) ;;
  print rule ;;
  print "(Can you make anything of this?)" ;;
  print "Please check the github page for more info: https://github.com/Owen-Cochell/PaperMC-Update.".

(** ** The operating system and the network *)

(** The fate of the next file operation; an exhausted script means no
    further faults. *)
Definition next_fault : M fault :=
  fun w =>
    match faults w with
    | [] => (Return NoFault, w)
    | f :: rest => (Return f, set_faults rest w)
    end.

Definition upd (p : path) (v : option bytes) (f : path -> option bytes)
  : path -> option bytes :=
  fun q => if path_eqb q p then v else f q.

Definition store (p : path) (v : option bytes) : M unit :=
  modify (fun w => set_files (upd p v (files w)) w).

(** [shutil.copyfile(src, dst)] *)
Definition copyfile (src dst : path) : M unit :=
  record (Copy src dst) ;;
  f <- next_fault ;;
  fs <- get files ;;
  match f with
  | FailBefore e => raise e
  | _ =>
      if path_eqb src dst then raise (OSError "are the same file")
      else
        match fs src with
        | None => raise (FileNotFoundError "No such file or directory")
        | Some data =>
            match f with
            | FailPartial e n => store dst (Some (firstn n data)) ;; raise e
            | _ => store dst (Some data)
            end
        end
  end.

(** [os.remove(p)] *)
Definition remove (p : path) : M unit :=
  record (Remove p) ;;
  f <- next_fault ;;
  fs <- get files ;;
  match f with
  | FailBefore e | FailPartial e _ => raise e
  | NoFault =>
      match fs p with
      | None => raise (FileNotFoundError "No such file or directory")
      | Some _ => store p None
      end
  end.

(** [open(p, mode='ba')] *)
Definition open_append (p : path) : M unit :=
  record (Open p) ;;
  f <- next_fault ;;
  fs <- get files ;;
  match f with
  | FailBefore e | FailPartial e _ => raise e
  | NoFault =>
      match fs p with
      | None => store p (Some [])
      | Some _ => ret tt
      end
  end.

(** [file.write(data)] on a file opened for appending *)
Definition file_write (p : path) (data : bytes) : M unit :=
  record (Write p data) ;;
  f <- next_fault ;;
  fs <- get files ;;
  let old := match fs p with Some b => b | None => [] end in
  match f with
  | FailBefore e => raise e
  | FailPartial e n => store p (Some (old ++ firstn n data)%list) ;; raise e
  | NoFault => store p (Some (old ++ data)%list)
  end.

(** [TemporaryDirectory.cleanup()]: the directory and its two files go.
    The tree is deleted entry by entry, in no fixed order, so a cleanup
    that fails may have deleted some of it: [FailPartial e n] raises
    after the backup went ([n = 1]), after the download went ([n = 2]),
    after both went ([n >= 3]) or before either did ([n = 0]). *)
Definition cleanup : M unit :=
  record Cleanup ;;
  f <- next_fault ;;
  match f with
  | FailBefore e => raise e
  | FailPartial e n =>
      (if ((n =? 1) || (3 <=? n))%nat then store Backup None else ret tt) ;;
      (if (2 <=? n)%nat then store DownloadData None else ret tt) ;;
      raise e
  | NoFault => store Backup None ;; store DownloadData None
  end.

(** [urllib.request.urlopen(req)] on an API listing URL: the opened
    reply is known by the remote side it came from. *)
Definition urlopen_listing (url : string) : M fetch :=
  record (Urlopen url) ;;
  r <- get (fun w => listing_at w url) ;;
  match r with
  | OpenFails e => raise e
  | opened => ret opened
  end.

(** [urllib.request.urlopen(req)] on a download URL *)
Definition urlopen_artifact (url : string) : M reply :=
  record (Urlopen url) ;;
  r <- get (fun w => artifact_at w url) ;;
  match r with
  | DlOpenFails e => raise e
  | DlOpened d =>
      modify (set_sock (mkSocket (body d) 0 (read_fault d))) ;;
      ret d
  end.

(** [data.read(amt)] *)
Definition sock_read (amt : nat) : M bytes :=
  record (Read amt) ;;
  s <- get sock ;;
  let failing :=
    match fails_at s with
    | Some (k, e) => if Nat.eqb k (reads s) then Some e else None
    | None => None
    end in
  match failing with
  | Some e =>
      modify (set_sock (mkSocket (unread s) (S (reads s)) (fails_at s))) ;;
      raise e
  | None =>
      modify (set_sock (mkSocket (skipn amt (unread s)) (S (reads s)) (fails_at s))) ;;
      ret (firstn amt (unread s))
  end.

(** [int(data.getheader('content-length'))] *)
Definition int_of_header (h : option string) : result Z :=
  match h with
  | None => Raise (TypeError "int() argument must be a string, a bytes-like object or a real number, not 'NoneType'")
  | Some s =>
      match int_of_str s with
      | Some z => Return z
      | None => Raise (ValueError ("invalid literal for int() with base 10: '" ++ s ++ "'"))
      end
  end.

(** [range(n)] *)
Definition range (n : Z) : list Z := map Z.of_nat (seq 0 (Z.to_nat n)).

(** [for x in l: body(x)] *)
Fixpoint for_each {A} (l : list A) (body : A -> M unit) : M unit :=
  match l with
  | [] => ret tt
  | x :: tl => body x ;; for_each tl body
  end.

Fixpoint drop_while {A} (p : A -> bool) (l : list A) : list A :=
  match l with
  | x :: tl => if p x then drop_while p tl else l
  | [] => []
  end.

Definition is_slash (c : ascii) : bool := Ascii.eqb c "/"%char.

(** [os.path.dirname(p)] *)
Definition dirname (p : string) : string :=
  let head_rev := drop_while (fun c => negb (is_slash c)) (rev (list_ascii_of_string p)) in
  if forallb is_slash head_rev
  then string_of_list_ascii (rev head_rev)
  else string_of_list_ascii (rev (drop_while is_slash head_rev)).

(** [os.path.join(a, b)] *)
Definition path_join (a b : string) : string :=
  match b with
  | String "/" _ => b
  | _ =>
      match rev (list_ascii_of_string a) with
      | [] => b
      | c :: _ => if is_slash c then a ++ b else a ++ "/" ++ b
      end
  end.

(** [s.lower()] *)
Definition lower_char (c : ascii) : ascii :=
  let n := nat_of_ascii c in
  if ((65 <=? n) && (n <=? 90))%nat then ascii_of_nat (n + 32) else c.

Fixpoint lower (s : string) : string :=
  match s with
  | EmptyString => EmptyString
  | String c rest => String (lower_char c) (lower rest)
  end.

(** [val in choice] *)
Definition mem (val : string) (choice : list string) : bool :=
  existsb (String.eqb val) choice.

(** ** class Update *)

Module Update.

Definition _base : string := "https://papermc.io/api/v1/paper".

Definition blocksize : Z := 4608.

(** The text of one progress report. *)
Definition bar (prefix : string) (size x shown end_ : Z) : string :=
  prefix ++ "[" ++ str_repeat "#" (Z.to_nat x)
         ++ str_repeat "." (Z.to_nat (size - x)) ++ "] "
         ++ str_of_Z shown ++ "/" ++ str_of_Z end_ ++ cr.

(** The counter a report shows at step [i]. *)
Definition shown (total step end_ i : Z) : Z :=
  if i <? total - 1 then i * step else end_.

(** [for i in self._progress_bar(total, step, end, prefix): body(i)]:
    the generator yields [i], the loop body runs, then the generator
    renders the bar; the newline follows the last step. *)
Definition _progress_bar (total step end_ : Z) (prefix : string)
           (loop_body : Z -> M unit) : M unit :=
  let size := 60 in
  for_each (range total) (fun i =>
    loop_body i ;;
    let x := (size * (i + 1)) / total in
    unless_quiet
      (emit (StdoutWrite (bar prefix size x (shown total step end_ i) end_)) ;;
       emit StdoutFlush)) ;;
  unless_quiet
    (emit (StdoutWrite nl) ;;
     emit StdoutFlush).

Definition _url_report (point : string) : M unit :=
  print (nl ++ rule) ;;
  print "> !ATTENTION! >" ;;
  print "An error occurred during a request operation." ;;
  print ("Fail Point: " ++ point) ;;
  print "Your check/update operation will be canceled." ;;
  print "Detailed error info below:".

(** [self._base + '/' + str(version) + '/' + str(build_num) + '/download'] *)
Definition download_url (version build_num : string) : string :=
  _base ++ "/" ++ version ++ "/" ++ build_num ++ "/download".

(** The URL [_get] builds. *)
Definition listing_url (version build_num : option string) : string :=
  match version with
  | Some v =>
      match build_num with
      | Some b => _base ++ "/" ++ v ++ "/" ++ b
      | None => _base ++ "/" ++ v
      end
  | None => _base
  end.

Definition download (p : path) (version build_num : string) : M bool :=
  output (nl ++ "[ --== Starting Download: ==-- ]") ;;
  let url := download_url version build_num in
  output ("URL: " ++ url) ;;
  opened <- try_except
              (data <- urlopen_artifact url ;; ret (Some data))
              (fun e =>
                 if is_URLError e then
                   _url_report "File Download" ;;
                   error_report e true ;;
                   ret None
                 else raise e) ;;
  match opened with
  | None => ret false
  | Some data =>
      length <- lift (int_of_header (content_length data)) ;;
      output ("Download Size: " ++ str_of_Z length) ;;
      open_append p ;;
      done <- try_except
                (_progress_bar (ceil_div length blocksize + 1) blocksize length
                               "Downloading:"
                               (fun _ =>
                                  byts <- sock_read (Z.to_nat blocksize) ;;
                                  file_write p byts) ;;
                 ret true)
                (fun e =>
                   if is_URLError e then
                     _url_report "File Download" ;;
                     error_report e true ;;
                     ret false
                   else
                     _url_report "File Download" ;;
                     error_report e false ;;
                     ret false) ;;
      if done then
        output "[ --== Download Complete! ==-- ]" ;;
        ret true
      else ret false
  end.

(** [_get]: [None] after a reported failure, the opened reply otherwise. *)
Definition _get (version build_num : option string) : M (option fetch) :=
  let final := listing_url version build_num in
  try_except
    (data <- urlopen_listing final ;; ret (Some data))
    (fun e =>
       _url_report "API Fetch Operation" ;;
       error_report e true ;;
       ret None).

Definition get_versions : M (option (list string)) :=
  output "  > Fetching and decoding version info..." ;;
  data <- _get None None ;;
  match data with
  | None => ret None
  | Some data =>
      data <- lift (read_json data) ;;
      output "  > Done fetching version information!" ;;
      versions <- lift data ;;
      ret (Some versions)
  end.

Definition get_buildnums (version : string) : M (option (list string)) :=
  output "  > Fetching and decoding build info..." ;;
  data <- _get (Some version) None ;;
  match data with
  | None => ret None
  | Some data =>
      data <- lift (read_json data) ;;
      output "  > Done fetching build info!" ;;
      builds <- lift data ;;
      ret (Some builds)
  end.

End Update.

(** ** class FileUtil *)

Definition with_temp (t : option string) (s : ServerUpdater_obj) : ServerUpdater_obj :=
  let f := su_fileutil s in
  mkServerUpdater (su_version s) (su_buildnum s) (su_available_versions s)
                  (su_prompt s) (su_config_file s)
                  (mkFileUtil (fu_path f) t (fu_config_default f)).

Definition with_available (l : list string) (s : ServerUpdater_obj) : ServerUpdater_obj :=
  mkServerUpdater (su_version s) (su_buildnum s) l
                  (su_prompt s) (su_config_file s) (su_fileutil s).

Definition with_installed (v : string) (b : buildid) (s : ServerUpdater_obj)
  : ServerUpdater_obj :=
  mkServerUpdater v b (su_available_versions s)
                  (su_prompt s) (su_config_file s) (su_fileutil s).

Module FileUtil.

Definition this : M FileUtil_obj := get (fun w => su_fileutil (self w)).

(** [self.temp.name] *)
Definition temp_name : M string :=
  fu <- this ;;
  match fu_temp fu with
  | Some name => ret name
  | None => raise (AttributeError "'NoneType' object has no attribute 'name'")
  end.

(** A fresh, empty temporary directory. *)
Definition create_temp_dir : M string :=
  n <- get tmp_serial ;;
  let name := "/tmp/tmp" ++ str_of_nat n in
  modify (set_tmp_serial (S n)) ;;
  store Backup None ;;
  store DownloadData None ;;
  modify (fun w => set_self (with_temp (Some name) (self w)) w) ;;
  ret name.

Definition sentinel : string * Z := ("0", 0).

(** The two assignments inside the second [try] of [load_config]. *)
Definition parse_current (current : string) : result (string * Z) :=
  match split_once " " current with
  | [build; version] =>
      match int_of_str (last (split_all "-" build) "") with
      | Some b => Return (py_slice version 5 (-1), b)
      | None => Raise (ValueError "invalid literal for int() with base 10")
      end
  | _ => Raise (ValueError "not enough values to unpack (expected 2, got 1)")
  end.

(** [config if config is not None else
    os.path.join(os.path.dirname(self.path), self.config_default)] *)
Definition config_path (fu : FileUtil_obj) (config : option string) : string :=
  match config with
  | Some c => c
  | None => path_join (dirname (fu_path fu)) (fu_config_default fu)
  end.

Definition load_config (config : option string) : M (string * Z) :=
  fu <- this ;;
  let config := config_path fu config in
  output ("# Checking configuration file at [" ++ config ++ "] ...") ;;
  cf <- get (fun w => config_at w config) ;;
  match cf with
  | NotAFile =>
      print ("# Unable to load config data from file at [" ++ config
             ++ "] - Not found/Not a file!") ;;
      ret sentinel
  | _ =>
      output "# Loading configuration data ..." ;;
      loaded <- try_except
                  (match cf with
                   | Loads doc => ret (Some doc)
                   | LoadRaises e => raise e
                   | NotAFile => raise (FileNotFoundError config)
                   end)
                  (fun _ =>
                     print "# Failed to load config data - Not in JSON format!" ;;
                     ret None) ;;
      match loaded with
      | None => ret sentinel
      | Some data =>
          current <- lift (getitem data "currentVersion") ;;
          match current with
          | JStr current =>
              parsed <- try_except
                          (vb <- lift (parse_current current) ;; ret (Some vb))
                          (fun _ =>
                             print "# Unable to load config data - Invalid Format, we support official builds only!" ;;
                             ret None) ;;
              match parsed with
              | None => ret sentinel
              | Some (version, build) =>
                  output "# Done loading configuration data! " ;;
                  ret (version, build)
              end
          | other =>
              print ("# Failed to load config data - We want strings, not "
                     ++ type_repr other ++ "!") ;;
              ret sentinel
          end
      end
  end.

Definition _fail_install (point : string) : M unit :=
  print (nl ++ rule) ;;
  print "> !ATTENTION! <" ;;
  print "An error occurred during the installation, and we can not continue." ;;
  print "We will attempt to recover your previous installation(If applicable)" ;;
  print ("Fail point: " ++ point) ;;
  print "Detailed error info below:".

Definition critical : string := "# Critical error during recovery process!".

Definition not_recovered : string :=
  "Your previous installation could not be recovered.".

Definition _recover_backup : M bool :=
  fu <- this ;;
  print rule ;;
  print (nl ++ "> !ATTENTION! <") ;;
  print "A failure has occurred during the installation process." ;;
  print "I'm sure you can see the error information above." ;;
  print "This script will attempt to recover your old installation." ;;
  print "If this operation fails, check the github page for more info: https://github.com/Owen-Cochell/PaperMC-Update" ;;
  print "# Deleting Corrupted temporary File..." ;;
  deleted <- try_except
               (remove Target ;; ret true)
               (fun e =>
                  if is_FileNotFoundError e then
                    print "# File not found. Continuing operation..." ;;
                    ret true
                  else
                    print critical ;;
                    print "# Displaying error information:" ;;
                    error_report e false ;;
                    print not_recovered ;;
                    ret false) ;;
  if negb deleted then ret false
  else
    name <- temp_name ;;
    print ("# Copying backup file[" ++ path_join name "backup"
           ++ "] to server root directory[" ++ fu_path fu ++ "]...") ;;
    copied <- try_except
                (copyfile Backup Target ;; ret true)
                (fun e =>
                   print critical ;;
                   print "# Displaying error information:" ;;
                   error_report e false ;;
                   print not_recovered ;;
                   ret false) ;;
    if negb copied then ret false
    else
      print (nl ++ "Recovery process complete!") ;;
      print "Your file has been successfully recovered." ;;
      print "Please debug the situation, and figure out why the problem occurred," ;;
      print "Before re-trying the update process." ;;
      ret true.

Definition install : M bool :=
  fu <- this ;;
  output (nl ++ "[ --== installation: ==-- ]") ;;
  output "# Creating backup of previous installation..." ;;
  backed_up <- try_except
                 (_ <- temp_name ;;
                  copyfile Target Backup ;;
                  ret true)
                 (fun e =>
                    _fail_install "File Backup" ;;
                    error_report e false ;;
                    ret false) ;;
  if negb backed_up then ret false
  else
    name <- temp_name ;;
    output ("# Backup created at: " ++ path_join name "backup") ;;
    output ("# Deleting current file at " ++ fu_path fu ++ "...") ;;
    removed <- try_except
                 (remove Target ;; ret true)
                 (fun e =>
                    _fail_install "Old File Deletion" ;;
                    error_report e false ;;
                    _ <- _recover_backup ;;
                    ret false) ;;
    if negb removed then ret false
    else
      output "# Removed original file!" ;;
      copied <- try_except
                  (output "# Copying download data to root directory..." ;;
                   name <- temp_name ;;
                   output ("# (" ++ path_join name "download_data" ++ " > "
                           ++ fu_path fu ++ ")") ;;
                   copyfile DownloadData Target ;;
                   ret true)
                  (fun e =>
                     _fail_install "File Copy" ;;
                     error_report e false ;;
                     _ <- _recover_backup ;;
                     ret false) ;;
      if negb copied then ret false
      else
        output "# Done copying download data to root directory!" ;;
        output "# Cleaning up temporary directory..." ;;
        cleanup ;;
        output "# Done cleaning temporary directory!" ;;
        output "[ --== installation complete! ==-- ]" ;;
        ret true.

End FileUtil.

(** ** class ServerUpdater *)

Module ServerUpdater.

Definition check : M bool :=
  output (nl ++ "[ --== Checking For New Version: ==-- ]") ;;
  output "# Comparing local <> remote server versions..." ;;
  ver <- Update.get_versions ;;
  match ver with
  | None => ret false
  | Some ver =>
      ver0 <- lift (first ver) ;;
      me <- get self ;;
      if negb (String.eqb ver0 (su_version me)) then
        output ("# New Version available! - [Version: " ++ ver0 ++ "]") ;;
        output ("[ --== Version check complete! ==-- ]" ++ nl) ;;
        ret true
      else
        output "# No new version available." ;;
        output "# Comparing local <> remote builds..." ;;
        build <- Update.get_buildnums (su_version me) ;;
        match build with
        | None => ret false
        | Some build =>
            build0 <- lift (first build) ;;
            if negb (String.eqb build0 (str_of_buildid (su_buildnum me))) then
              output ("# New build available! - [Build: " ++ build0 ++ "]") ;;
              output ("[ --== Version check complete! ==-- ]" ++ nl) ;;
              ret true
            else
              output "# No new builds found." ;;
              output ("[ --== Version check complete! ==-- ]" ++ nl) ;;
              ret false
        end
  end.

Definition _select (val : string) (choice : list string) (default name : string)
  : M (bool * string) :=
  let val := if String.eqb val "" then default else val in
  if String.eqb val "latest" then
    available <- get (fun w => su_available_versions (self w)) ;;
    newest <- lift (first available) ;;
    output ("# Selecting latest " ++ name ++ " - [" ++ newest ++ "]...") ;;
    val <- lift (first choice) ;;
    ret (true, val)
  else if negb (mem val choice) then
    output (nl ++ "# Error: Invalid " ++ name ++ " selected!") ;;
    ret (false, "")
  else
    output ("# Selecting " ++ name ++ ": [" ++ val ++ "]...") ;;
    ret (true, val).

(** [while True: v = input(text); stat, v = self._select(v, ...); if stat: break]
    Each turn reads one line, so the loop is bounded by the lines left
    on standard input: [lines] is that input when the loop starts. *)
Fixpoint ask (lines : list string) (text : string) (choice : list string)
         (default name : string) : M string :=
  v <- input text ;;
  sel <- _select v choice default name ;;
  if fst sel then ret (snd sel)
  else
    match lines with
    | _ :: rest => ask rest text choice default name
    | [] => _ <- input text ;; raise EOFError
    end.

Definition version_select (default_version default_build : string)
  : M (option (string * string)) :=
  output "# Checking version information..." ;;
  me <- get self ;;
  loaded <- match su_available_versions me with
            | [] =>
                output "# Loading version information..." ;;
                data <- Update.get_versions ;;
                match data with
                | None => ret false
                | Some data =>
                    modify (fun w => set_self (with_available data (self w)) w) ;;
                    ret true
                end
            | _ => ret true
            end ;;
  if negb loaded then ret None
  else
    available <- get (fun w => su_available_versions (self w)) ;;
    ver <- (if su_prompt me then
              print (nl ++ "[ --== Version Select: ==-- ] ") ;;
              print (nl ++ "Please enter the version you would like to download:") ;;
              print "Example: 14.4.4" ;;
              print "(Tip: The value enclosed in brackets is the default option. Leave the prompt blank to accept it.)" ;;
              print "(Tip: Enter 'latest' to select the latest version.)" ;;
              print (nl ++ "Available versions:") ;;
              for_each available (fun i => print ("  > Version: [" ++ i ++ "]")) ;;
              lines <- get stdin ;;
              v <- ask lines (nl ++ "Enter Version[" ++ default_version ++ "]: ")
                       available default_version "version" ;;
              ret (Some v)
            else
              sel <- _select "" available default_version "version" ;;
              if negb (fst sel) then
                print "# Aborting installation!" ;;
                ret None
              else ret (Some (snd sel))) ;;
    match ver with
    | None => ret None
    | Some ver =>
        output "# Loading build information..." ;;
        nums <- Update.get_buildnums ver ;;
        match nums with
        | None => ret None
        | Some nums =>
            build <- (if su_prompt me then
                        print (nl ++ "Please enter the build you would like to download:") ;;
                        print "Example: 205" ;;
                        print "(Tip: The value enclosed in brackets is the default option. Leave the prompt blank to accept it.)" ;;
                        print "(Tip: Enter 'latest' to select the latest build.)" ;;
                        print (nl ++ "Available Builds:") ;;
                        for_each nums (fun i => print ("  > Build Num: [" ++ i ++ "]")) ;;
                        lines <- get stdin ;;
                        b <- ask lines (nl ++ "Enter Build[" ++ default_build ++ "]: ")
                                 nums default_build "build" ;;
                        ret (Some b)
                      else
                        sel <- _select "" nums default_build "build" ;;
                        if negb (fst sel) then
                          output "# Aborting installation!" ;;
                          ret None
                        else ret (Some (snd sel))) ;;
            match build with
            | None => ret None
            | Some build =>
                output (nl ++ "You have selected:") ;;
                output ("   > Version: [" ++ ver ++ "]") ;;
                output ("   > Build: [" ++ build ++ "]") ;;
                output (nl ++ "[ --== Version Selection Complete! ==-- ]") ;;
                ret (Some (ver, build))
            end
        end
    end.

(** The confirmation block of [get_new]: [false] when the user
    declines. *)
Definition confirm : M bool :=
  me <- get self ;;
  if su_prompt me then
    print (nl ++ "Do you want to continue with the installation?") ;;
    inp <- input "(Y/N):" ;;
    if mem (lower inp) ["n"; "no"] then
      output "Canceling installation..." ;;
      ret false
    else ret true
  else ret true.

(** The three statements of [get_new] that make the temporary
    directory. *)
Definition stage : M unit :=
  output "# Creating temporary directory..." ;;
  name <- FileUtil.create_temp_dir ;;
  output ("# Temporary directory created at: " ++ name).

Definition get_new (default_version default_build : string) : M unit :=
  sel <- version_select default_version default_build ;;
  match sel with
  | None => ret tt
  | Some (ver, build) =>
      go <- confirm ;;
      if negb go then ret tt
      else
        stage ;;
        val <- Update.download DownloadData ver build ;;
        if negb val then ret tt
        else
          val <- FileUtil.install ;;
          if negb val then ret tt
          else
            output (nl ++ "Update complete!") ;;
            modify (fun w => set_self (with_installed ver (BStr build) (self w)) w)
  end.

(** [self.buildnum != 0]: an integer other than zero, or any string (a
    string never equals an integer). *)
Definition buildid_nonzero (b : buildid) : bool :=
  match b with
  | BInt z => negb (z =? 0)
  | BStr _ => true
  end.

(** [_start(config)]: the installed version and build given by the
    caller stand unless they are ['0'] and [0]; those are replaced by what
    the configuration file says, or stay when it is not read. *)
Definition _start (config : bool) : M unit :=
  temp <- (if config then
             me <- get self ;;
             FileUtil.load_config (su_config_file me)
           else
             output "# Skipping configuration file!" ;;
             ret ("0", 0)) ;;
  me <- get self ;;
  let version :=
    if negb (String.eqb (su_version me) "0") then su_version me else fst temp in
  let buildnum :=
    if buildid_nonzero (su_buildnum me) then su_buildnum me else BInt (snd temp) in
  modify (fun w => set_self (with_installed version buildnum (self w)) w) ;;
  output (nl ++ "Server Version Information:") ;;
  output ("  > Version: [" ++ version ++ "]") ;;
  output ("  > Build: [" ++ str_of_buildid buildnum ++ "]").

(** [ServerUpdater(path, config_file, version, build, config, prompt)],
    with the version a string as the script passes it. *)
Definition __init__ (path : string) (config_file : option string) (version : string)
           (build : buildid) (config prompt : bool) : M unit :=
  modify (set_self (mkServerUpdater version build [] prompt config_file
                                    (mkFileUtil path None "version_history.json"))) ;;
  _start config.

End ServerUpdater.

(** ** The script *)

(** The parsed command line; [args.quiet] is the [quiet] of the world.
    [no_load_config] is the value argparse stores: true unless [-nlc] is
    given.  [ib] is the integer 0 by default and a string when given. *)
Record arguments : Type := mkArguments {
  arg_path : string;                  (* path *)
  arg_version : string;               (* -v, default 'latest' *)
  arg_build : string;                 (* -b, default 'latest' *)
  arg_iv : string;                    (* -iv, default '0' *)
  arg_ib : buildid;                   (* -ib, default 0 *)
  arg_check_only : bool;              (* -c *)
  arg_no_check : bool;                (* -nc *)
  arg_interactive : bool;             (* -i *)
  arg_no_load_config : bool;          (* -nlc, store_false *)
  arg_config_file : option string     (* -cf *)
}.

Definition banner : string :=
  "|     _____                              __  __          __      __        |" ++ nl ++
  "|    / ___/___  ______   _____  _____   / / / /___  ____/ /___ _/ /____    |" ++ nl ++
  "|    \__ \/ _ \/ ___/ | / / _ \/ ___/  / / / / __ \/ __  / __ `/ __/ _ \   |" ++ nl ++
  "|   ___/ /  __/ /   | |/ /  __/ /     / /_/ / /_/ / /_/ / /_/ / /_/  __/   |" ++ nl ++
  "|  /____/\___/_/    |___/\___/_/      \____/ .___/\__,_/\__,_/\__/\___/    |" ++ nl ++
  "|                                         /_/                              |".

Definition banner_rule : string :=
  "+==========================================================================+".

(** The body of [if __name__ == '__main__':] after the arguments are
    parsed. *)
Definition main (args : arguments) : M unit :=
  output banner_rule ;;
  output banner ;;
  output banner_rule ;;
  output (nl ++ "[PaperMC Server Updater]") ;;
  output "[Handles the checking, downloading, and installation of server versions]" ;;
  output ("[Written by: Owen Cochell]" ++ nl) ;;
  ServerUpdater.__init__ (arg_path args) (arg_config_file args) (arg_iv args)
                         (arg_ib args) (arg_no_load_config args)
                         (arg_interactive args) ;;
  update_available <- (if negb (arg_no_check args) then ServerUpdater.check
                       else ret true) ;;
  if negb (arg_check_only args) && update_available then
    ServerUpdater.get_new (arg_version args) (arg_build args)
  else ret tt.

(** ** Vocabulary of the specifications *)

Local Open Scope list_scope.

(** What a run printed, and which calls it made: the part of the final
    console (call trace) that follows the initial one. *)
Definition said (w w' : world) : list entry :=
  skipn (List.length (console w)) (console w').

Definition did (w w' : world) : list call :=
  skipn (List.length (calls w)) (calls w').

(** The installed state the updater holds in memory. *)
Definition installed (w : world) : string * buildid :=
  (su_version (self w), su_buildnum (self w)).

(** The postcondition [Q] holds of the result and final world of [m]
    started in [w]. *)
Definition wp {A} (m : M A) (Q : result A -> world -> Prop) (w : world) : Prop :=
  Q (fst (m w)) (snd (m w)).

(** Procedures that only talk: they return, and the world changes by the
    lines they print, which satisfy [P]. *)
Definition talks (m : M unit) (P : list entry -> Prop) : Prop :=
  forall w, exists l, m w = (Return tt, set_console (console w ++ l) w) /\ P l.

(** The fate of the three steps of [install], read off the fault script
    and the files: the steps are the first, second and third file
    operation of the attempt. *)
Definition backup_ok (w : world) : Prop :=
  fu_temp (su_fileutil (self w)) <> None /\
  files w Target <> None /\
  hd NoFault (faults w) = NoFault.

Definition backup_fails (w : world) : Prop :=
  fu_temp (su_fileutil (self w)) = None \/
  files w Target = None \/
  hd NoFault (faults w) <> NoFault.

Definition delete_fails (w : world) : Prop :=
  backup_ok w /\ hd NoFault (tl (faults w)) <> NoFault.

Definition copy_in_fails (w : world) : Prop :=
  backup_ok w /\ hd NoFault (tl (faults w)) = NoFault /\
  (hd NoFault (tl (tl (faults w))) <> NoFault \/ files w DownloadData = None).

Definition copy_in_ok (w : world) : Prop :=
  backup_ok w /\ hd NoFault (tl (faults w)) = NoFault /\
  hd NoFault (tl (tl (faults w))) = NoFault /\ files w DownloadData <> None.

(** The two ways a failed install ends: the target is back and the
    recovery says so, or the recovery reports a critical error. *)
Definition restored_or_critical (w w' : world) (l : list entry) : Prop :=
  (files w' Target = files w Target /\
   In (Print "Your file has been successfully recovered.") l) \/
  (In (Print FileUtil.critical) l /\ In (Print FileUtil.not_recovered) l).

(** A world to run examples in: a server jar of three bytes, an empty
    temporary directory, an API that knows one version and two builds and
    serves a five-byte artifact. *)
Definition demo_jar : bytes := [Byte.x50; Byte.x4b; Byte.x03].

Definition demo_artifact : bytes := [Byte.x50; Byte.x4b; Byte.x05; Byte.x06; Byte.x07].

Definition demo_files (p : path) : option bytes :=
  match p with
  | Target => Some demo_jar
  | _ => None
  end.

Definition demo_listing (url : string) : fetch :=
  if String.eqb url Update._base then Opened (Return ["1.16.5"; "1.16.4"])
  else if String.eqb url (Update._base ++ "/1.16.5")%string then Opened (Return ["205"; "204"])
  else OpenFails (HTTPError 404 "Not Found").

Definition demo_download (url : string) : artifact :=
  if String.eqb url (Update.download_url "1.16.5" "205")
  then DlOpened (mkReply (Some "5"%string) demo_artifact None)
  else DlOpenFails (HTTPError 404 "Not Found").

Definition demo_config (doc : config_file) (p : string) : config_file :=
  if String.eqb p "/srv/mc/version_history.json" then doc else NotAFile.

Definition demo_updater : ServerUpdater_obj :=
  mkServerUpdater "1.16.5" (BInt 200) [] false None
                  (mkFileUtil "/srv/mc/paper.jar" None "version_history.json").

Definition demo : world :=
  mkWorld false [] demo_listing demo_download
          (demo_config (Loads (JDict [("currentVersion"%string, JStr "build-205 (MC: 1.16.5)")])))
          [] [] [] demo_files 0 (mkSocket [] 0 None) demo_updater.

(** The demo world with another configuration file. *)
Definition demo_with_config (doc : config_file) : world :=
  mkWorld false [] demo_listing demo_download (demo_config doc)
          [] [] [] demo_files 0 (mkSocket [] 0 None) demo_updater.

(** The demo world about to install: the temporary directory exists and
    holds the download; [script] is the fate of the file operations. *)
Definition demo_staged (script : list fault) : world :=
  mkWorld false [] demo_listing demo_download (demo_config NotAFile)
          script [] []
          (upd DownloadData (Some demo_artifact) demo_files)
          1 (mkSocket [] 0 None)
          (with_temp (Some "/tmp/tmp0"%string) demo_updater).

(** The result of [load_config], read off the configuration file. *)
Definition config_outcome (cf : config_file) : result (string * Z) :=
  match cf with
  | NotAFile | LoadRaises _ => Return FileUtil.sentinel
  | Loads doc =>
      match getitem doc "currentVersion" with
      | Raise e => Raise e
      | Return (JStr current) =>
          match FileUtil.parse_current current with
          | Return vb => Return vb
          | Raise _ => Return FileUtil.sentinel
          end
      | Return _ => Return FileUtil.sentinel
      end
  end.

(** A failed API request was reported: the fail point, the error name
    and the traceback are on the console. *)
Definition fetch_reported (e : exn) (l : list entry) : Prop :=
  In (Print "Fail Point: API Fetch Operation") l /\
  In (Print ("Error Name: " ++ str_of_exn e)) l /\
  In (Traceback e) l.

(** The demo world with the API out of reach. *)
Definition demo_offline : world :=
  mkWorld false [] (fun _ => OpenFails (URLError "timed out")) demo_download
          (demo_config NotAFile) [] [] [] demo_files 0 (mkSocket [] 0 None) demo_updater.

(** The demo world once the version list is cached. *)
Definition demo_cached : world :=
  set_self (with_available ["1.16.5"%string; "1.16.4"%string] demo_updater) demo.

(** The block read at a time, in bytes. *)
Definition block : nat := Z.to_nat Update.blocksize.

(** The number of steps [download] asks of the progress bar:
    [ceil(length/blocksize) + 1]. *)
Definition total_steps (length : Z) : Z := ceil_div length Update.blocksize + 1.

(** The text of the report of step [i], and the entries the reports of
    steps [k], ..., [k + n - 1] leave on the console. *)
Definition progress_line (prefix : string) (total step end_ : Z) (i : nat) : string :=
  Update.bar prefix 60 ((60 * (Z.of_nat i + 1)) / total)
             (Update.shown total step end_ (Z.of_nat i)) end_.

Definition progress_reports (prefix : string) (total step end_ : Z) (k n : nat)
  : list entry :=
  flat_map (fun i => [StdoutWrite (progress_line prefix total step end_ i); StdoutFlush])
           (seq k n).

(** The calls of [n] turns of the download loop on the unread bytes [u]:
    a read of one block, and a write of what the read returned. *)
Fixpoint loop_calls (p : path) (u : bytes) (n : nat) : list call :=
  match n with
  | O => []
  | S m => Read block :: Write p (firstn block u) :: loop_calls p (skipn block u) m
  end.

(** The texts written to standard output, and the sizes of the reads. *)
Definition progress_of (l : list entry) : list string :=
  flat_map (fun e => match e with StdoutWrite t => [t] | _ => [] end) l.

Definition reads_of (d : list call) : list nat :=
  flat_map (fun c => match c with Read amt => [amt] | _ => [] end) d.

(** What a download without faults, not in quiet mode, leaves behind. *)
Definition download_post (w : world) (p : path) (version build : string)
           (N : Z) (data : bytes) (res : result bool) (w' : world) : Prop :=
  res = Return true /\
  did w w' = Urlopen (Update.download_url version build) :: Open p
              :: loop_calls p data (Z.to_nat (total_steps N)) /\
  progress_of (said w w')
  = map (progress_line "Downloading:" (total_steps N) Update.blocksize N)
        (seq 0 (Z.to_nat (total_steps N))) ++ [nl] /\
  files w' p = Some (match files w p with Some b => b | None => [] end
                     ++ firstn (Z.to_nat (total_steps N) * block) data).

(** The demo world with an artifact of no bytes. *)
Definition demo_empty : world :=
  mkWorld false [] demo_listing
          (fun _ => DlOpened (mkReply (Some "0"%string) [] None))
          (demo_config NotAFile) [] [] [] demo_files 0 (mkSocket [] 0 None) demo_updater.

(** The world without its side channel: the quiet flag and the console. *)
Definition erase (w : world) : world := set_console [] (set_quiet false w).

(** Two worlds that differ in the side channel only. *)
Definition alike (w1 w2 : world) : Prop := erase w1 = erase w2.

(** [m] cannot tell such worlds apart: it returns the same result in
    both and leaves them alike. *)
Definition respects {A} (m : M A) : Prop :=
  forall w1 w2, alike w1 w2 ->
                fst (m w1) = fst (m w2) /\ alike (snd (m w1)) (snd (m w2)).

(** [m] returns and touches the side channel only. *)
Definition silent (m : M unit) : Prop :=
  forall w, fst (m w) = Return tt /\ alike (snd (m w)) w.

(** [m] leaves the installed state as it found it. *)
Definition keeps {A} (m : M A) : Prop :=
  forall w, installed (snd (m w)) = installed w.

(** The demo world in quiet mode, and with no artifact to download. *)
Definition demo_quiet : world := set_quiet true demo.

Definition demo_no_artifact : world :=
  mkWorld false [] demo_listing (fun _ => DlOpenFails (HTTPError 404 "Not Found"))
          (demo_config NotAFile) [] [] [] demo_files 0 (mkSocket [] 0 None) demo_updater.

(** A listing the API did not deliver. *)
Definition unavailable (f : fetch) : Prop :=
  match f with
  | Opened (Return _) => False
  | _ => True
  end.

(** The faults left for the recovery: the script after the step that
    failed, the second file operation when the removal failed, the third
    when the copy-in did. *)
Definition recovery_script (w : world) : list fault :=
  match hd NoFault (tl (faults w)) with
  | NoFault => tl (tl (tl (faults w)))
  | _ => tl (tl (faults w))
  end.

(** The removal of the recovery does not stop it: it is let run, or it
    raises [FileNotFoundError]. *)
Definition removal_passes (f : fault) : bool :=
  match f with
  | NoFault => true
  | FailBefore e | FailPartial e _ => is_FileNotFoundError e
  end.

(** A file operation that is let run. *)
Definition let_run (f : fault) : bool :=
  match f with
  | NoFault => true
  | _ => false
  end.

(** The recovery runs to its end on a script: its removal passes and its
    copy of the backup is let run.  It fails when the removal raises
    something other than [FileNotFoundError], or the copy raises. *)
Definition recovers (script : list fault) : bool :=
  removal_passes (hd NoFault script) && let_run (hd NoFault (tl script)).

Definition recovery_runs (w : world) : bool := recovers (recovery_script w).

(** The demo world with replies that break off while they are read. *)
Definition demo_unreadable : world :=
  mkWorld false [] (fun _ => Opened (Raise (IncompleteRead "IncompleteRead(0 bytes read)")))
          demo_download (demo_config NotAFile) [] [] [] demo_files 0
          (mkSocket [] 0 None) demo_updater.


(** The demo world with an API whose documents lack the lists. *)
Definition demo_misshapen : world :=
  mkWorld false [] (fun _ => Misshapen (KeyError "versions"))
          demo_download (demo_config NotAFile) [] [] [] demo_files 0
          (mkSocket [] 0 None) demo_updater.

(** ** Vocabulary of the further properties *)

(** The fourth file operation of an install attempt, the cleanup of the
    temporary directory, is let run. *)
Definition cleanup_ok (w : world) : Prop :=
  hd NoFault (tl (tl (tl (faults w)))) = NoFault.

(** The newest identifier of a listing: none when the request fails. *)
Definition newest (f : fetch) : result (option string) :=
  match f with
  | OpenFails _ => Return None
  | Opened (Raise e) | Misshapen e => Raise e
  | Opened (Return ids) =>
      match first ids with
      | Return x => Return (Some x)
      | Raise e => Raise e
      end
  end.

(** The verdict of [check], read off the two listings and the installed
    version and build. *)
Definition check_outcome (la : string -> fetch) (v : string) (b : buildid) : result bool :=
  match newest (la (Update.listing_url None None)) with
  | Raise e => Raise e
  | Return None => Return false
  | Return (Some v0) =>
      if String.eqb v0 v then
        match newest (la (Update.listing_url (Some v) None)) with
        | Raise e => Raise e
        | Return None => Return false
        | Return (Some b0) => Return (negb (String.eqb b0 (str_of_buildid b)))
        end
      else Return true
  end.

(** What the script leaves of a world when it only talks and calls. *)
Definition logged (l : list entry) (d : list call) (w : world) : world :=
  set_console (console w ++ l) (set_calls (calls w ++ d) w).

(** The result of a listing request, read off the remote side. *)
Definition fetch_outcome (f : fetch) (r : result (option (list string))) (l : list entry) : Prop :=
  match f with
  | Opened (Return ids) => r = Return (Some ids)
  | Opened (Raise e) | Misshapen e => r = Raise e
  | OpenFails e => r = Return None /\ fetch_reported e l
  end.

(** A failed download was reported. *)
Definition download_reported (e : exn) (l : list entry) : Prop :=
  In (Print "Fail Point: File Download") l /\
  In (Print ("Error Name: " ++ str_of_exn e)) l /\
  In (Traceback e) l.

(** The demo world with a reply that declares no length. *)
Definition demo_no_length : world :=
  mkWorld false [] demo_listing
          (fun _ => DlOpened (mkReply None demo_artifact None))
          (demo_config NotAFile) [] [] [] demo_files 0 (mkSocket [] 0 None) demo_updater.

(** The demo world with a connection that breaks at the first read. *)
Definition demo_broken : world :=
  mkWorld false [] demo_listing
          (fun _ => DlOpened (mkReply (Some "5"%string) demo_artifact
                                      (Some (0%nat, IncompleteRead "0 bytes read"))))
          (demo_config NotAFile) [] [] [] demo_files 0 (mkSocket [] 0 None) demo_updater.

(** The result of [_select], read off its arguments and the cached
    version list. *)
Definition select_outcome (val : string) (choice : list string) (default : string)
           (available : list string) : result (bool * string) :=
  let val := if String.eqb val "" then default else val in
  if String.eqb val "latest" then
    match first available with
    | Raise e => Raise e
    | Return _ =>
        match first choice with
        | Raise e => Raise e
        | Return c => Return (true, c)
        end
    end
  else if mem val choice then Return (true, val)
  else Return (false, "").

(** The prompts among the entries of a console. *)
Definition prompts_of (l : list entry) : list string :=
  flat_map (fun e => match e with Prompt t => [t] | _ => [] end) l.

(** The answers that cancel an installation. *)
Definition declines (line : string) : bool :=
  mem line ["n"; "N"; "no"; "No"; "nO"; "NO"].

(** [m] leaves the observation [obs] of the world as it found it. *)
Definition preserves {X A} (obs : world -> X) (m : M A) : Prop :=
  forall w, obs (snd (m w)) = obs w.

(** The file system as the script meets it: the contents of the files,
    the fate of the operations to come, the temporary directories made. *)
Definition storage (w : world) : (path -> option bytes) * list fault * nat :=
  (files w, faults w, tmp_serial w).

(** The server jar. *)
Definition target_file (w : world) : option bytes := files w Target.

(** What the script can see of the outside: the file system and the API. *)
Definition outside (w : world)
  : ((path -> option bytes) * list fault * nat) * (string -> fetch) :=
  (storage w, listing_at w).

(** The command line with every option at its default, one that adds
    [-c], and one that tells the installed version and build and leaves
    the configuration file alone. *)
Definition demo_args : arguments :=
  mkArguments "/srv/mc/paper.jar" "latest" "latest" "0" (BInt 0)
              false false false true None.

Definition with_check_only (a : arguments) : arguments :=
  mkArguments (arg_path a) (arg_version a) (arg_build a) (arg_iv a) (arg_ib a)
              true (arg_no_check a) (arg_interactive a) (arg_no_load_config a)
              (arg_config_file a).

Definition demo_told_args : arguments :=
  mkArguments "/srv/mc/paper.jar" "latest" "latest" "1.16.5" (BStr "205")
              false false false false None.

(** [sep not in s] *)
Fixpoint lacks (sep : ascii) (s : string) : bool :=
  match s with
  | EmptyString => true
  | String c rest => negb (Ascii.eqb c sep) && lacks sep rest
  end.

(** * Properties *)

(** ** Lists *)

Lemma skipn_app_exact {A} (l k : list A) : skipn (List.length l) (l ++ k) = k.
Proof. induction l; simpl; auto. Qed.

Lemma said_ext w w' l : console w' = console w ++ l -> said w w' = l.
Proof. unfold said. intros ->. apply skipn_app_exact. Qed.

Lemma did_ext w w' d : calls w' = calls w ++ d -> did w w' = d.
Proof. unfold did. intros ->. apply skipn_app_exact. Qed.

(** ** The calculus of postconditions *)

Section WP.

Context {A : Type}.
Implicit Types (Q : result A -> world -> Prop) (w : world).

Lemma wp_ret (a : A) Q w : Q (Return a) w -> wp (ret a) Q w.
Proof. exact (fun H => H). Qed.

Lemma wp_raise e Q w : Q (Raise e) w -> wp (raise e) Q w.
Proof. exact (fun H => H). Qed.

Lemma wp_lift (r : result A) Q w : Q r w -> wp (lift r) Q w.
Proof. exact (fun H => H). Qed.

Lemma wp_get (f : world -> A) Q w : Q (Return (f w)) w -> wp (get f) Q w.
Proof. exact (fun H => H). Qed.

Lemma wp_conseq (m : M A) Q Q' w :
  wp m Q w -> (forall r w', Q r w' -> Q' r w') -> wp m Q' w.
Proof. unfold wp; auto. Qed.

Lemma wp_bind {B} (m : M B) (k : B -> M A) Q w :
  wp m (fun r w1 => match r with
                    | Return b => wp (k b) Q w1
                    | Raise e => Q (Raise e) w1
                    end) w ->
  wp (bind m k) Q w.
Proof. unfold wp, bind. destruct (m w) as [[b|e] w1]; simpl; auto. Qed.

Lemma wp_try (m : M A) (h : exn -> M A) Q w :
  wp m (fun r w1 => match r with
                    | Return a => Q (Return a) w1
                    | Raise e => wp (h e) Q w1
                    end) w ->
  wp (try_except m h) Q w.
Proof. unfold wp, try_except. destruct (m w) as [[a|e] w1]; simpl; auto. Qed.

End WP.

Lemma wp_modify f (Q : result unit -> world -> Prop) w :
  Q (Return tt) (f w) -> wp (modify f) Q w.
Proof. exact (fun H => H). Qed.

Lemma wp_unless_quiet m (Q : result unit -> world -> Prop) w :
  (if quiet w then Q (Return tt) w else wp m Q w) ->
  wp (unless_quiet m) Q w.
Proof. unfold wp, unless_quiet. destruct (quiet w); simpl; auto. Qed.

Lemma wp_output t (Q : result unit -> world -> Prop) w :
  Q (Return tt) (set_console (console w ++ (if quiet w then [] else [Print t])) w) ->
  wp (output t) Q w.
Proof.
  unfold wp, output, unless_quiet.
  destruct w as [q i la aa ca fl c rq fs ts sk me]; cbn.
  destruct q; cbn; auto. now rewrite app_nil_r.
Qed.

Lemma wp_next_fault (Q : result fault -> world -> Prop) w :
  Q (Return (hd NoFault (faults w))) (set_faults (tl (faults w)) w) ->
  wp next_fault Q w.
Proof.
  unfold wp, next_fault. destruct w as [q i la aa ca fl c rq fs ts sk me]; simpl.
  destruct fl; simpl; auto.
Qed.

Lemma wp_talks m P (Q : result unit -> world -> Prop) w :
  talks m P ->
  (forall l, P l -> Q (Return tt) (set_console (console w ++ l) w)) ->
  wp m Q w.
Proof.
  intros Hm HQ. destruct (Hm w) as (l & E & Hl). unfold wp. rewrite E. simpl. auto.
Qed.

(** ** Procedures that only talk *)

Lemma set_console_app l1 l2 w :
  set_console (console (set_console (console w ++ l1) w) ++ l2)
              (set_console (console w ++ l1) w)
  = set_console (console w ++ (l1 ++ l2)) w.
Proof. destruct w; cbn. now rewrite app_assoc. Qed.

Lemma talks_emit e : talks (emit e) (fun l => l = [e]).
Proof. intros w. eexists; split; reflexivity. Qed.

Lemma talks_print t : talks (print t) (fun l => l = [Print t]).
Proof. apply talks_emit. Qed.

Lemma talks_ret : talks (ret tt) (fun l => l = []).
Proof.
  intros w. exists []. split; auto. unfold ret. destruct w; cbn. now rewrite app_nil_r.
Qed.

Lemma talks_bind m1 m2 (P1 P2 : list entry -> Prop) :
  talks m1 P1 -> talks m2 P2 ->
  talks (m1 ;; m2) (fun l => exists l1 l2, l = l1 ++ l2 /\ P1 l1 /\ P2 l2).
Proof.
  intros H1 H2 w. destruct (H1 w) as (l1 & E1 & Hl1).
  destruct (H2 (set_console (console w ++ l1) w)) as (l2 & E2 & Hl2).
  exists (l1 ++ l2). unfold bind. rewrite E1, E2, set_console_app. eauto 6.
Qed.

Lemma talks_weaken m (P P' : list entry -> Prop) :
  talks m P -> (forall l, P l -> P' l) -> talks m P'.
Proof. intros H HP w. destruct (H w) as (l & E & Hl). eauto. Qed.

Ltac find_in :=
  lazymatch goal with
  | |- In ?x (?a :: ?l) => first [apply in_eq | apply in_cons; find_in]
  | |- In ?x (?l1 ++ ?l2) => apply in_or_app; first [left; find_in | right; find_in]
  | |- In ?x ?l => eassumption
  end.

Ltac talks_seq := repeat (apply talks_bind || apply talks_print || apply talks_emit || apply talks_ret).

Ltac talks_split :=
  cbv beta; intros;
  repeat match goal with
         | H : exists _, _ |- _ => destruct H
         | H : _ /\ _ |- _ => destruct H
         end; subst.

Lemma error_report_talks e net :
  talks (error_report e net)
        (fun l => In (Print ("Error Name: " ++ str_of_exn e)) l /\ In (Traceback e) l).
Proof.
  unfold error_report. eapply talks_weaken.
  - talks_seq. instantiate (1 := fun _ => True). destruct net.
    + destruct (reason_of e), (code_of e); (eapply talks_weaken; [talks_seq | auto]).
    + eapply talks_weaken; [apply talks_ret | auto].
  - talks_split. split; find_in.
Qed.

Lemma fail_install_talks point :
  talks (FileUtil._fail_install point) (fun l => In (Print ("Fail point: " ++ point)) l).
Proof.
  unfold FileUtil._fail_install. eapply talks_weaken; [talks_seq | talks_split; find_in].
Qed.

Lemma url_report_talks point :
  talks (Update._url_report point) (fun l => In (Print ("Fail Point: " ++ point)) l).
Proof.
  unfold Update._url_report. eapply talks_weaken; [talks_seq | talks_split; find_in].
Qed.

(** ** Symbolic execution *)

Ltac proj :=
  cbn [quiet stdin listing_at artifact_at config_at faults console calls files
       tmp_serial sock self set_quiet set_stdin set_faults set_console set_calls
       set_files set_tmp_serial set_sock set_self upd path_eqb read_json] in *.

Ltac red_goal :=
  lazy beta iota zeta delta
       [quiet stdin listing_at artifact_at config_at faults console calls files
        tmp_serial sock self set_quiet set_stdin set_faults set_console set_calls
        set_files set_tmp_serial set_sock set_self upd path_eqb read_json].

Ltac case_on x :=
  first [ match goal with H : x = _ |- _ => rewrite H end | destruct x eqn:? ].

Ltac wp_prim :=
  lazymatch goal with
  | |- wp (bind _ _) _ _ => apply wp_bind
  | |- wp (try_except _ _) _ _ => apply wp_try
  | |- wp (ret _) _ _ => apply wp_ret
  | |- wp (raise _) _ _ => apply wp_raise
  | |- wp (lift (first _)) _ _ => apply wp_lift; cbn [first]
  | |- wp (lift _) _ _ => apply wp_lift
  | |- wp (get _) _ _ => apply wp_get
  | |- wp (modify _) _ _ => apply wp_modify
  | |- wp next_fault _ _ => apply wp_next_fault
  | |- wp (unless_quiet _) _ _ => apply wp_unless_quiet
  | |- wp (output _) _ _ => apply wp_output
  | |- wp (error_report _ _) _ _ =>
      eapply wp_talks; [apply error_report_talks|]; intros ? [? ?]
  | |- wp (FileUtil._fail_install _) _ _ =>
      eapply wp_talks; [apply fail_install_talks|]; intros ? ?
  | |- wp (Update._url_report _) _ _ =>
      eapply wp_talks; [apply url_report_talks|]; intros ? ?
  | |- wp (print _) _ _ => unfold print at 1
  | |- wp (emit _) _ _ => unfold emit at 1
  | |- wp (record _) _ _ => unfold record at 1
  | |- wp (store _ _) _ _ => unfold store at 1
  | |- wp (copyfile _ _) _ _ => unfold copyfile at 1
  | |- wp (remove _) _ _ => unfold remove at 1
  | |- wp cleanup _ _ => unfold cleanup at 1
  | |- wp (input _) _ _ => unfold input at 1
  | |- wp (urlopen_listing _) _ _ => unfold urlopen_listing at 1
  | |- wp (urlopen_artifact _) _ _ => unfold urlopen_artifact at 1
  | |- wp (open_append _) _ _ => unfold open_append at 1
  | |- wp (file_write _ _) _ _ => unfold file_write at 1
  | |- wp FileUtil.this _ _ => unfold FileUtil.this at 1
  | |- wp FileUtil.temp_name _ _ => unfold FileUtil.temp_name at 1
  | |- wp (Update._get _ _) _ _ => unfold Update._get at 1
  | |- wp Update.get_versions _ _ => unfold Update.get_versions at 1
  | |- wp (Update.get_buildnums _) _ _ => unfold Update.get_buildnums at 1
  | |- wp (if negb true then _ else _) _ _ => change (negb true) with false
  | |- wp (if negb false then _ else _) _ _ => change (negb false) with true
  | |- wp (if negb ?x then _ else _) _ _ => case_on x
  | |- wp (match ?x with _ => _ end) _ _ => case_on x
  | |- wp (if ?x then _ else _) _ _ => case_on x
  | |- wp (let (_, _) := ?x in _) _ _ => destruct x
  end; red_goal.

Ltac app_norm := rewrite <- ?app_assoc.

(** A goal [base ++ l1 ++ ... = base ++ ?l], the extension to be found. *)
Ltac ext_eq := first [reflexivity | symmetry; apply app_nil_r].

(** ** The install sequence *)

(** Recovery, started with a backup in place: the console and the call
    trace grow, the updater and the temporary directory are untouched, and
    either the target holds the backup again or the critical failure is
    printed. *)
Lemma recover_backup_spec w :
  fu_temp (su_fileutil (self w)) <> None ->
  files w Backup <> None ->
  wp FileUtil._recover_backup (fun r w' =>
    exists l d, console w' = console w ++ l /\ calls w' = calls w ++ d /\
    self w' = self w /\
    files w' Backup = files w Backup /\
    files w' DownloadData = files w DownloadData /\
    ((r = Return true /\ files w' Target = files w Backup /\
      In (Print "Your file has been successfully recovered.") l) \/
     (r = Return false /\
      In (Print FileUtil.critical) l /\ In (Print FileUtil.not_recovered) l))) w.
Proof.
  destruct w as [q i la aa ca fl c rq fs ts sk me]; proj.
  intros Ht Hb. unfold FileUtil._recover_backup.
  repeat wp_prim.
  all: try congruence.
  all: app_norm; do 2 eexists; (split; [ext_eq|]); (split; [ext_eq|]).
  all: repeat split; auto.
  all: try (left; repeat split; solve [congruence | find_in]).
  all: try (right; repeat split; solve [congruence | find_in]).
Qed.

Ltac wp_step :=
  lazymatch goal with
  | |- wp FileUtil._recover_backup _ ?w =>
      eapply wp_conseq; [apply recover_backup_spec; proj; congruence|];
      let r := fresh "r" in
      let w' := fresh "w" in
      intros r w' (? & ? & ? & ? & ? & ? & ? & [(? & ? & ?)|(? & ? & ?)]);
      destruct w' as [? ? ? ? ? ? ? ? ? ? ? ?]; proj; subst; red_goal
  | |- _ => wp_prim
  end.

(** Every run of [install] is of one of three kinds, told apart by the
    fate of its steps. *)
Lemma install_cases w :
  wp FileUtil.install (fun r w' =>
    exists l d, console w' = console w ++ l /\ calls w' = calls w ++ d /\
    self w' = self w /\
    ((backup_fails w /\ r = Return false /\ files w' Target = files w Target /\
      (d = [] \/ d = [Copy Target Backup]) /\
      In (Print "Fail point: File Backup") l /\ (exists e, In (Traceback e) l))
     \/
     ((delete_fails w \/ copy_in_fails w) /\ r = Return false /\
      files w' Backup = files w Target /\ restored_or_critical w w' l)
     \/
     (copy_in_ok w /\ files w' Target = files w DownloadData /\
      (r = Return true \/ exists e, r = Raise e)))) w.
Proof.
  destruct w as [q i la aa ca fl c rq fs ts sk me]; proj.
  unfold FileUtil.install.
  repeat wp_step.
  all: app_norm; do 2 eexists; (split; [ext_eq|]); (split; [ext_eq|]); (split; [reflexivity|]).
  all: cbv beta in *.
  all: unfold backup_fails, delete_fails, copy_in_fails, copy_in_ok, backup_ok,
         restored_or_critical; proj.
  all: try (left; repeat split;
            solve [congruence | intuition congruence | find_in | eexists; find_in]).
  all: try (right; left; split; [solve [intuition congruence] | repeat split; try congruence]).
  all: try (left; split; solve [congruence | find_in]).
  all: try (right; split; solve [congruence | find_in]).
  all: try (right; right; repeat split;
            solve [congruence | left; congruence | right; eexists; reflexivity ]).
Qed.


(** The recovery step by step, started with a backup in place: whether
    it runs to its end is read off the fate of its two file operations.
    If it does, the target holds the backup and the recovery says so; if
    not, the critical failure is printed.  The backup and the updater are
    untouched either way. *)
Lemma recover_backup_runs w :
  fu_temp (su_fileutil (self w)) <> None ->
  files w Backup <> None ->
  wp FileUtil._recover_backup (fun r w' =>
    exists l d, console w' = console w ++ l /\ calls w' = calls w ++ d /\
    self w' = self w /\
    files w' Backup = files w Backup /\
    r = Return (recovers (faults w)) /\
    if recovers (faults w)
    then files w' Target = files w Backup /\
         In (Print "Your file has been successfully recovered.") l
    else In (Print FileUtil.critical) l /\ In (Print FileUtil.not_recovered) l) w.
Proof.
  destruct w as [q i la aa ca fl c rq fs ts sk me]; proj.
  intros Ht Hb. unfold FileUtil._recover_backup.
  repeat wp_prim.
  all: try congruence.
  all: try match goal with
           | H : is_FileNotFoundError (FileNotFoundError _) = false |- _ => discriminate H
           end.
  all: app_norm; do 2 eexists; (split; [ext_eq|]); (split; [ext_eq|]).
  all: (split; [reflexivity|]); (split; [congruence|]).
  all: unfold recovers, removal_passes, let_run.
  all: repeat match goal with
              | H : hd NoFault ?l = _ |- context [hd NoFault ?l] => rewrite H
              | H : is_FileNotFoundError _ = _ |- _ => rewrite H
              end.
  all: cbn [andb].
  all: (split; [reflexivity|]).
  all: split; try congruence; find_in.
Qed.

Ltac wp_rec :=
  lazymatch goal with
  | |- wp FileUtil._recover_backup _ ?w =>
      eapply wp_conseq; [apply recover_backup_runs; proj; congruence|];
      let r := fresh "r" in
      let w' := fresh "w" in
      let Hrec := fresh "Hrec" in
      intros r w' (? & ? & ? & ? & ? & ? & -> & Hrec);
      destruct w' as [q' i' la' aa' ca' fl' c' rq' fs' ts' sk' me']; proj; subst; red_goal
  | |- _ => wp_prim
  end.

(** C1. An install attempt whose delete step or copy-in step fails
    returns false with the backup still holding the original file, and
    the automatic recovery decides the rest.  If the recovery runs to its
    end (its removal of the target is let run or raises
    [FileNotFoundError], and its copy of the backup is let run), the
    target is byte-identical to what it was before the attempt and the
    recovery says so.  If the recovery itself fails (its removal raises
    something else, or its copy raises), the lines
    [# Critical error during recovery process!] and
    [Your previous installation could not be recovered.] are printed, in
    quiet mode as well. *)
Theorem install_recovers_or_reports_critical w :
  delete_fails w \/ copy_in_fails w ->
  let w' := snd (FileUtil.install w) in
  fst (FileUtil.install w) = Return false /\
  files w' Backup = files w Target /\
  (recovery_runs w = true ->
   files w' Target = files w Target /\
   In (Print "Your file has been successfully recovered.") (said w w')) /\
  (recovery_runs w = false ->
   In (Print FileUtil.critical) (said w w') /\
   In (Print FileUtil.not_recovered) (said w w')).
Proof.
  intros Hf. cbv zeta.
  change (wp FileUtil.install (fun r w' =>
    r = Return false /\
    files w' Backup = files w Target /\
    (recovery_runs w = true ->
     files w' Target = files w Target /\
     In (Print "Your file has been successfully recovered.") (said w w')) /\
    (recovery_runs w = false ->
     In (Print FileUtil.critical) (said w w') /\
     In (Print FileUtil.not_recovered) (said w w'))) w).
  unfold delete_fails, copy_in_fails, backup_ok, recovery_runs, recovery_script in *.
  destruct w as [q i la aa ca fl c rq fs ts sk me]; proj.
  unfold FileUtil.install.
  repeat wp_rec.
  all: try (exfalso; intuition congruence).
  all: (split; [reflexivity|]).
  all: (split; [congruence|]).
  all: unfold said; proj; app_norm; rewrite skipn_app_exact.
  all: destruct (recovers _); (split; intros Hrun; [|try discriminate Hrun]);
       try discriminate Hrun.
  all: destruct Hrec; split; first [congruence | find_in].
Qed.

(** C6. An install attempt whose backup copy fails returns false; the
    only file operation it made, if any, is that copy, so the target was
    neither removed nor written and is what it was; and the failure is
    reported with its fail point and traceback. *)
Theorem install_backup_failure_leaves_target w :
  backup_fails w ->
  let w' := snd (FileUtil.install w) in
  fst (FileUtil.install w) = Return false /\
  files w' Target = files w Target /\
  (did w w' = [] \/ did w w' = [Copy Target Backup]) /\
  ~ In (Remove Target) (did w w') /\
  ~ In (Copy Backup Target) (did w w') /\
  In (Print "Fail point: File Backup") (said w w') /\
  (exists e, In (Traceback e) (said w w')).
Proof.
  intros Hf. destruct (install_cases w) as (l & d & Hl & Hd & _ & H).
  cbv zeta. rewrite (said_ext _ _ _ Hl), (did_ext _ _ _ Hd).
  unfold delete_fails, copy_in_fails, copy_in_ok, backup_fails, backup_ok in *.
  destruct H as [H | [H | H]].
  - destruct H as (_ & Hr & Ht & Hc & Hp & He).
    repeat split; auto.
    + destruct Hc as [-> | ->]; simpl; intuition discriminate.
    + destruct Hc as [-> | ->]; simpl; intuition discriminate.
  - exfalso. intuition congruence.
  - exfalso. intuition congruence.
Qed.

(** A witness of C1: the delete step is refused, the recovery runs and
    the jar is back. *)
Lemma install_recovers_witness :
  let w := demo_staged [NoFault; FailBefore (OSError "Device or resource busy")] in
  (delete_fails w \/ copy_in_fails w) /\
  fst (FileUtil.install w) = Return false /\
  files (snd (FileUtil.install w)) Backup = Some demo_jar /\
  files (snd (FileUtil.install w)) Target = Some demo_jar /\
  In (Print "Your file has been successfully recovered.")
     (said w (snd (FileUtil.install w))).
Proof.
  assert (H : delete_fails (demo_staged [NoFault; FailBefore (OSError "Device or resource busy")])
              \/ copy_in_fails (demo_staged [NoFault; FailBefore (OSError "Device or resource busy")])).
  { left. unfold delete_fails, backup_ok. simpl. repeat split; discriminate. }
  pose proof (install_recovers_or_reports_critical _ H) as K.
  cbv zeta in K. destruct K as (K1 & K2 & K3 & _).
  cbv zeta. split; [exact H|]. split; [exact K1|]. split; [exact K2|].
  exact (K3 eq_refl).
Defined.

(** A witness of C6: the backup copy is refused. *)
Lemma install_backup_failure_witness :
  let w := demo_staged [FailBefore (OSError "Permission denied")] in
  backup_fails w /\
  fst (FileUtil.install w) = Return false /\
  files (snd (FileUtil.install w)) Target = files w Target /\
  (did w (snd (FileUtil.install w)) = [] \/
   did w (snd (FileUtil.install w)) = [Copy Target Backup]) /\
  ~ In (Remove Target) (did w (snd (FileUtil.install w))) /\
  ~ In (Copy Backup Target) (did w (snd (FileUtil.install w))) /\
  In (Print "Fail point: File Backup") (said w (snd (FileUtil.install w))) /\
  (exists e, In (Traceback e) (said w (snd (FileUtil.install w)))).
Proof.
  assert (H : backup_fails (demo_staged [FailBefore (OSError "Permission denied")])).
  { right. right. simpl. discriminate. }
  split; [exact H | exact (install_backup_failure_leaves_target _ H)].
Defined.

(** The recovery can itself fail: the delete step is refused, the
    recovery removes the target and is interrupted one byte into copying
    the backup back.  The target is left with that byte and the backup
    keeps the original. *)
Example install_recovery_interrupted :
  let w := demo_staged [NoFault; FailBefore (OSError "busy"); NoFault;
                        FailPartial (OSError "No space left on device") 1] in
  fst (FileUtil.install w) = Return false /\
  files (snd (FileUtil.install w)) Target = Some [Byte.x50] /\
  files (snd (FileUtil.install w)) Backup = Some demo_jar /\
  In (Print FileUtil.critical) (said w (snd (FileUtil.install w))) /\
  In (Traceback (OSError "No space left on device")) (said w (snd (FileUtil.install w))).
Proof. vm_compute. repeat split; auto; tauto. Qed.

(** A run without faults puts the download in place and empties the
    temporary directory. *)
Example install_succeeds :
  let w := demo_staged [] in
  fst (FileUtil.install w) = Return true /\
  files (snd (FileUtil.install w)) Target = Some demo_artifact /\
  files (snd (FileUtil.install w)) Backup = None /\
  did w (snd (FileUtil.install w))
  = [Copy Target Backup; Remove Target; Copy DownloadData Target; Cleanup].
Proof. vm_compute. auto. Qed.

(** ** The configuration reader *)

Ltac wp_more :=
  lazymatch goal with
  | |- match (match ?x with _ => _ end) with _ => _ end => case_on x; red_goal
  | |- match ?x with _ => _ end => case_on x; red_goal
  | |- _ => wp_step
  end.

(** [load_config] returns what [config_outcome] reads off the file at
    the configured path, whatever else the world holds. *)
Lemma load_config_outcome config w :
  fst (FileUtil.load_config config w)
  = config_outcome (config_at w (FileUtil.config_path (su_fileutil (self w)) config)).
Proof.
  change (wp (FileUtil.load_config config)
             (fun r _ => r = config_outcome
                 (config_at w (FileUtil.config_path (su_fileutil (self w)) config))) w).
  destruct w as [q i la aa ca fl c rq fs ts sk me]; proj.
  unfold FileUtil.load_config, config_outcome.
  repeat wp_more.
  all: reflexivity.
Qed.

Lemma parse_current_official :
  FileUtil.parse_current "build-205 (MC: 1.16.5)" = Return ("1.16.5"%string, 205).
Proof. reflexivity. Qed.

(** C7. With a configuration file that is a JSON object whose
    [currentVersion] field is the string [build-205 (MC: 1.16.5)],
    [load_config] returns the version [1.16.5] and the integer build 205. *)
Theorem load_config_official_example config w kv :
  config_at w (FileUtil.config_path (su_fileutil (self w)) config) = Loads (JDict kv) ->
  assoc "currentVersion" kv = Some (JStr "build-205 (MC: 1.16.5)") ->
  fst (FileUtil.load_config config w) = Return ("1.16.5"%string, 205).
Proof.
  intros Hc Hk. rewrite load_config_outcome, Hc. unfold config_outcome, getitem.
  rewrite Hk, parse_current_official. reflexivity.
Qed.

Lemma load_config_official_witness :
  fst (FileUtil.load_config None demo) = Return ("1.16.5"%string, 205).
Proof.
  apply (load_config_official_example None demo
           [("currentVersion"%string, JStr "build-205 (MC: 1.16.5)")]); reflexivity.
Defined.

(** X6. The inputs on which [load_config] does return the sentinel: no file,
    a file that cannot be opened or decoded, a field that is not a string,
    a string on which the parse raises. *)
Lemma load_config_sentinel config w :
  let cf := config_at w (FileUtil.config_path (su_fileutil (self w)) config) in
  cf = NotAFile \/
  (exists e, cf = LoadRaises e) \/
  (exists doc v, cf = Loads doc /\ getitem doc "currentVersion" = Return v /\
                 forall s, v <> JStr s) \/
  (exists doc s e, cf = Loads doc /\ getitem doc "currentVersion" = Return (JStr s) /\
                   FileUtil.parse_current s = Raise e) ->
  fst (FileUtil.load_config config w) = Return ("0"%string, 0).
Proof.
  cbv zeta. rewrite load_config_outcome. unfold config_outcome.
  intros [-> | [(e & ->) | [(doc & v & -> & -> & Hv) | (doc & s & e & -> & -> & ->)]]];
    try reflexivity.
  destruct v; try reflexivity. now destruct (Hv s).
Qed.

(** A string without a space, or whose first word does not end in an
    integer, makes the parse raise. *)
Lemma parse_current_rejects :
  (exists e, FileUtil.parse_current "1.16.5" = Raise e) /\
  (exists e, FileUtil.parse_current "build-latest (MC: 1.16.5)" = Raise e).
Proof. split; eexists; reflexivity. Qed.

(** C2. A configuration file that is valid JSON but has no
    [currentVersion] field makes [load_config] raise [KeyError]: the
    lookup stands between the two guarded blocks and is not guarded. *)
Theorem load_config_missing_field_raises :
  fst (FileUtil.load_config None
         (demo_with_config (Loads (JDict [("version"%string, JStr "build-205 (MC: 1.16.5)")]))))
  = Raise (KeyError "currentVersion").
Proof. reflexivity. Qed.

(** So does a document that is not an object. *)
Example load_config_not_an_object :
  fst (FileUtil.load_config None (demo_with_config (Loads (JList []))))
  = Raise (TypeError "list indices must be integers or slices, not str").
Proof. reflexivity. Qed.

(** The parse asks little of the string: a space, and an integer after
    the last dash of the first word.  Text that is not of the official
    shape is read all the same. *)
Example load_config_reads_unofficial_text :
  fst (FileUtil.load_config None
         (demo_with_config (Loads (JDict [("currentVersion"%string, JStr "205 whatever")]))))
  = Return ("ve"%string, 205).
Proof. reflexivity. Qed.

(** ** The update check *)

(** C3. When the API lists [v0] first: if [v0] differs from the installed
    version, [check] returns true having opened the version list only;
    if it equals the installed version and the build list of that version
    starts with [b0], [check] returns true when [b0] differs from the
    installed build (as a string) and false when it is the same. *)
Theorem check_compares_newest w v0 vs :
  listing_at w (Update.listing_url None None) = Opened (Return (v0 :: vs)) ->
  (v0 <> su_version (self w) ->
   fst (ServerUpdater.check w) = Return true /\
   did w (snd (ServerUpdater.check w)) = [Urlopen (Update.listing_url None None)]) /\
  (v0 = su_version (self w) ->
   forall b0 bs,
     listing_at w (Update.listing_url (Some (su_version (self w))) None)
     = Opened (Return (b0 :: bs)) ->
     (b0 <> str_of_buildid (su_buildnum (self w)) ->
      fst (ServerUpdater.check w) = Return true) /\
     (b0 = str_of_buildid (su_buildnum (self w)) ->
      fst (ServerUpdater.check w) = Return false)).
Proof.
  intros Hv. split.
  - intros Hne.
    change (wp ServerUpdater.check
               (fun r w' => r = Return true /\
                            did w w' = [Urlopen (Update.listing_url None None)]) w).
    apply String.eqb_neq in Hne.
    destruct w as [q i la aa ca fl c rq fs ts sk me]; proj.
    unfold ServerUpdater.check.
    repeat wp_more.
    all: try discriminate.
    all: split; [reflexivity | apply did_ext; reflexivity].
  - intros He b0 bs Hb.
    change (wp ServerUpdater.check
              (fun r _ => (b0 <> str_of_buildid (su_buildnum (self w)) -> r = Return true) /\
                          (b0 = str_of_buildid (su_buildnum (self w)) -> r = Return false)) w).
    apply String.eqb_eq in He.
    destruct w as [q i la aa ca fl c rq fs ts sk me]; proj.
    unfold ServerUpdater.check.
    repeat wp_more.
    all: try discriminate.
    all: match goal with
         | H : String.eqb _ (str_of_buildid _) = true |- _ => apply String.eqb_eq in H
         | H : String.eqb _ (str_of_buildid _) = false |- _ => apply String.eqb_neq in H
         end.
    all: split; intros; congruence.
Qed.

(** A witness of C3: build 200 of 1.16.5 is installed, the API lists
    1.16.5 first and build 205 first. *)
Lemma check_compares_newest_witness :
  fst (ServerUpdater.check demo) = Return true.
Proof.
  refine (proj1 (proj2 (check_compares_newest demo "1.16.5" ["1.16.4"%string] eq_refl)
                       eq_refl "205"%string ["204"%string] eq_refl) _).
  vm_compute. discriminate.
Defined.

(** When opening the version list fails, or the version list starts
    with the installed version and opening its build list fails, [check]
    returns false, and the failure is on the console: fail point, error
    name and traceback.  And whenever a listing it needs is not
    delivered, whether the request fails or the reply cannot be read,
    [check] does not return true. *)
Theorem check_fails_closed w :
  (forall e,
     listing_at w (Update.listing_url None None) = OpenFails e ->
     fst (ServerUpdater.check w) = Return false /\
     fetch_reported e (said w (snd (ServerUpdater.check w)))) /\
  (forall e vs,
     listing_at w (Update.listing_url None None)
     = Opened (Return (su_version (self w) :: vs)) ->
     listing_at w (Update.listing_url (Some (su_version (self w))) None) = OpenFails e ->
     fst (ServerUpdater.check w) = Return false /\
     fetch_reported e (said w (snd (ServerUpdater.check w)))) /\
  (unavailable (listing_at w (Update.listing_url None None)) ->
   fst (ServerUpdater.check w) <> Return true) /\
  (forall vs,
     listing_at w (Update.listing_url None None)
     = Opened (Return (su_version (self w) :: vs)) ->
     unavailable (listing_at w (Update.listing_url (Some (su_version (self w))) None)) ->
     fst (ServerUpdater.check w) <> Return true).
Proof.
  split; [|split; [|split]].
  - intros e He.
    change (wp ServerUpdater.check
               (fun r w' => r = Return false /\ fetch_reported e (said w w')) w).
    destruct w as [q i la aa ca fl c rq fs ts sk me]; proj.
    unfold ServerUpdater.check.
    repeat wp_more.
    split; [reflexivity|]. unfold said; proj. app_norm. rewrite skipn_app_exact.
    cbv beta in *. unfold fetch_reported. repeat split; find_in.
  - intros e vs Hv He.
    change (wp ServerUpdater.check
               (fun r w' => r = Return false /\ fetch_reported e (said w w')) w).
    destruct w as [q i la aa ca fl c rq fs ts sk me]; proj.
    unfold ServerUpdater.check.
    repeat wp_more.
    all: try match goal with
             | H : String.eqb ?x ?x = false |- _ =>
                 rewrite String.eqb_refl in H; discriminate
             end.
    split; [reflexivity|]. unfold said; proj. app_norm. rewrite skipn_app_exact.
    cbv beta in *. unfold fetch_reported. repeat split; find_in.
  - intros Hu.
    change (wp ServerUpdater.check (fun r _ => r <> Return true) w).
    destruct w as [q i la aa ca fl c rq fs ts sk me]; proj.
    unfold ServerUpdater.check.
    destruct (la (Update.listing_url None None)) as [e|[l|e]|e] eqn:E;
      [ | destruct Hu | | ].
    all: repeat wp_more; discriminate.
  - intros vs Hv Hu.
    change (wp ServerUpdater.check (fun r _ => r <> Return true) w).
    destruct w as [q i la aa ca fl c rq fs ts sk me]; proj.
    unfold ServerUpdater.check.
    destruct (la (Update.listing_url (Some (su_version me)) None)) as [e|[l|e]|e] eqn:E;
      [ | destruct Hu | | ].
    all: repeat wp_more.
    all: try match goal with
             | H : String.eqb ?x ?x = false |- _ =>
                 rewrite String.eqb_refl in H; discriminate
             end.
    all: discriminate.
Qed.

(** A reply that opens but cannot be read or decoded is not guarded: the
    exception leaves [check]. *)
Example check_unreadable_reply :
  let w := mkWorld false [] (fun _ => Opened (Raise (JSONDecodeError "Expecting value")))
                   demo_download (demo_config NotAFile) [] [] [] demo_files 0
                   (mkSocket [] 0 None) demo_updater in
  fst (ServerUpdater.check w) = Raise (JSONDecodeError "Expecting value").
Proof. reflexivity. Qed.

(** The API out of reach. *)
Lemma check_fails_closed_witness :
  fst (ServerUpdater.check demo_offline) = Return false /\
  fetch_reported (URLError "timed out")
                 (said demo_offline (snd (ServerUpdater.check demo_offline))).
Proof.
  exact (proj1 (check_fails_closed demo_offline) (URLError "timed out") eq_refl).
Defined.

(** C4. A network failure while the reply is read is not guarded:
    [json.loads(data.read())] stands outside the handler of [_get].  When
    reading the version list raises, or the version list starts with the
    installed version and reading its build list raises, the exception
    leaves [check]: it does not return false, and nothing is reported,
    neither the fail point nor a traceback. *)
Theorem check_read_failure_escapes w e :
  listing_at w (Update.listing_url None None) = Opened (Raise e) \/
  (exists vs,
     listing_at w (Update.listing_url None None)
     = Opened (Return (su_version (self w) :: vs)) /\
     listing_at w (Update.listing_url (Some (su_version (self w))) None)
     = Opened (Raise e)) ->
  let w' := snd (ServerUpdater.check w) in
  fst (ServerUpdater.check w) = Raise e /\
  (forall e', ~ In (Traceback e') (said w w')) /\
  ~ In (Print "Fail Point: API Fetch Operation") (said w w').
Proof.
  intros H. cbv zeta.
  change (wp ServerUpdater.check (fun r w' =>
    r = Raise e /\
    (forall e', ~ In (Traceback e') (said w w')) /\
    ~ In (Print "Fail Point: API Fetch Operation") (said w w')) w).
  destruct w as [q i la aa ca fl c rq fs ts sk me]; proj.
  unfold ServerUpdater.check.
  destruct H as [H | (vs & H1 & H2)].
  - repeat wp_more.
    split; [reflexivity|].
    unfold said; proj; app_norm; rewrite skipn_app_exact.
    split; [intros e'|]; destruct q; simpl; intuition discriminate.
  - repeat wp_more.
    all: try match goal with
             | H : String.eqb ?x ?x = false |- _ =>
                 rewrite String.eqb_refl in H; discriminate
             end.
    split; [reflexivity|].
    unfold said; proj; app_norm; rewrite skipn_app_exact.
    split; [intros e'|]; destruct q; simpl; intuition discriminate.
Qed.

(** A witness of C4: the connection breaks while the version list is
    read. *)
Lemma check_read_failure_witness :
  fst (ServerUpdater.check demo_unreadable)
  = Raise (IncompleteRead "IncompleteRead(0 bytes read)") /\
  (forall e', ~ In (Traceback e')
                   (said demo_unreadable (snd (ServerUpdater.check demo_unreadable)))).
Proof.
  pose proof (check_read_failure_escapes demo_unreadable
                (IncompleteRead "IncompleteRead(0 bytes read)") (or_introl eq_refl)) as H.
  cbv zeta in H. exact (conj (proj1 H) (proj1 (proj2 H))).
Defined.

(** A document without the list: the line that announces the end of the
    fetch is printed before the lookup raises. *)
Example check_misshapen_reply :
  fst (ServerUpdater.check demo_misshapen) = Raise (KeyError "versions") /\
  In (Print "  > Done fetching version information!")
     (said demo_misshapen (snd (ServerUpdater.check demo_misshapen))) /\
  ~ In (Print "  > Done fetching version information!")
       (said demo_unreadable (snd (ServerUpdater.check demo_unreadable))).
Proof. vm_compute. repeat split; [tauto | intuition discriminate]. Qed.

(** The build list failing, after the version matched. *)
Example check_build_fetch_fails :
  let w := mkWorld false []
             (fun url => if String.eqb url Update._base
                         then Opened (Return ["1.16.5"%string])
                         else OpenFails (HTTPError 500 "Internal Server Error"))
             demo_download (demo_config NotAFile) [] [] [] demo_files 0
             (mkSocket [] 0 None) demo_updater in
  fst (ServerUpdater.check w) = Return false /\
  did w (snd (ServerUpdater.check w))
  = [Urlopen Update._base; Urlopen (Update._base ++ "/1.16.5")%string].
Proof. vm_compute. auto. Qed.

(** ** Selection *)

Lemma mem_In val choice : mem val choice = true <-> In val choice.
Proof.
  unfold mem. rewrite existsb_exists. split.
  - intros (x & Hx & E). apply String.eqb_eq in E. now subst.
  - intros H. exists val. split; auto. apply String.eqb_refl.
Qed.




(** A selection that succeeds had candidates: after the version was
    selected from the cached list, that list is not empty when the build
    is selected. *)
Lemma select_success_nonempty val choice default name w v :
  fst (ServerUpdater._select val choice default name w) = Return (true, v) ->
  choice <> [].
Proof.
  intros H ->. revert H.
  change (wp (ServerUpdater._select val [] default name)
             (fun r _ => r = Return (true, v) -> False) w).
  unfold ServerUpdater._select.
  destruct w as [q i la aa ca fl co rq fs ts sk me]; proj.
  repeat wp_more; cbn [first mem existsb] in *; congruence.
Qed.

Example select_examples :
  fst (ServerUpdater._select "1.16.4" ["1.16.5"%string; "1.16.4"%string] "latest" "version" demo_cached)
  = Return (true, "1.16.4"%string) /\
  fst (ServerUpdater._select "1.17" ["1.16.5"%string; "1.16.4"%string] "latest" "version" demo_cached)
  = Return (false, ""%string) /\
  fst (ServerUpdater._select "" ["1.16.5"%string; "1.16.4"%string] "1.16.4" "version" demo_cached)
  = Return (true, "1.16.4"%string).
Proof. vm_compute. auto. Qed.

(** ** The download loop *)

Lemma firstn_plus {A} (n m : nat) (l : list A) :
  firstn (n + m) l = firstn n l ++ firstn m (skipn n l).
Proof.
  revert l. induction n; intros l; simpl; auto.
  destruct l; simpl.
  - now rewrite firstn_nil.
  - now rewrite IHn.
Qed.

Ltac wp_loop :=
  lazymatch goal with
  | |- wp (sock_read _) _ _ =>
      unfold sock_read at 1;
      lazy beta iota zeta delta [unread reads fails_at]
  | |- _ => wp_more
  end; lazy beta iota zeta delta [unread reads fails_at hd tl].

(** One turn of the download loop after another: with no faults and the
    progress bar shown, [n] turns starting at step [k] read [n] blocks,
    append them to the file and print [n] reports. *)
Section Loop.

Variables (p : path) (prefix : string) (total step end_ : Z).
Variables (i : list string) (la : string -> fetch) (aa : string -> artifact)
          (ca : string -> config_file) (ts : nat) (me : ServerUpdater_obj).

Let loop_body : Z -> M unit :=
  fun j =>
    (fun _ : Z => byts <- sock_read (Z.to_nat Update.blocksize) ;; file_write p byts) j ;;
    unless_quiet
      (emit (StdoutWrite (Update.bar prefix 60 ((60 * (j + 1)) / total)
                                     (Update.shown total step end_ j) end_)) ;;
       emit StdoutFlush).

Lemma loop_spec (Q : result unit -> world -> Prop) n :
  forall k c rq fs u cur,
    fs p = Some cur ->
    (forall fs' c' rq' u' r',
        fs' p = Some (cur ++ firstn (n * block) u) ->
        (forall q, q <> p -> fs' q = fs q) ->
        c' = c ++ progress_reports prefix total step end_ k n ->
        rq' = rq ++ loop_calls p u n ->
        u' = skipn (n * block) u ->
        r' = (k + n)%nat ->
        Q (Return tt)
          (mkWorld false i la aa ca [] c' rq' fs' ts (mkSocket u' r' None) me)) ->
    wp (for_each (map Z.of_nat (seq k n)) loop_body) Q
       (mkWorld false i la aa ca [] c rq fs ts (mkSocket u k None) me).
Proof.
  induction n as [|m IH]; intros k c rq fs u cur Hp HQ.
  - cbn [seq map for_each]. apply wp_ret.
    apply HQ; cbn; auto; now rewrite app_nil_r.
  - cbn [seq map for_each]. apply wp_bind. unfold loop_body at 1.
    cbv beta.
    repeat wp_loop.
    fold block. rewrite Hp.
    eapply (IH (S k) _ _ _ _ (cur ++ firstn block u)).
    + destruct p; reflexivity.
    + intros fs' c' rq' u' r' Hfs Hq -> -> -> ->.
      apply HQ; [ | | | | | lia].
      * rewrite Hfs, <- app_assoc. f_equal. f_equal.
        change (S m * block)%nat with (block + m * block)%nat.
        now rewrite firstn_plus.
      * intros q Hne. rewrite (Hq q Hne). destruct q, p; congruence.
      * cbn [progress_reports seq flat_map]. unfold progress_line.
        now rewrite <- !app_assoc.
      * cbn [loop_calls]. now rewrite <- !app_assoc.
      * change (S m * block)%nat with (block + m * block)%nat.
        rewrite Nat.add_comm. now rewrite <- skipn_skipn.
Qed.
End Loop.

Lemma progress_of_app l1 l2 : progress_of (l1 ++ l2) = progress_of l1 ++ progress_of l2.
Proof. apply flat_map_app. Qed.

Lemma reads_of_app l1 l2 : reads_of (l1 ++ l2) = reads_of l1 ++ reads_of l2.
Proof. apply flat_map_app. Qed.

Lemma progress_of_reports prefix total step end_ k n :
  progress_of (progress_reports prefix total step end_ k n)
  = map (progress_line prefix total step end_) (seq k n).
Proof.
  unfold progress_reports. revert k. induction n; intros k; cbn [seq flat_map map]; auto.
  rewrite progress_of_app, IHn. reflexivity.
Qed.

Lemma reads_of_loop_calls p u n : reads_of (loop_calls p u n) = repeat block n.
Proof.
  revert u. induction n; intros u; cbn [loop_calls repeat]; auto.
  change (reads_of (Read block :: Write p (firstn block u) :: loop_calls p (skipn block u) n))
    with (block :: reads_of (loop_calls p (skipn block u) n)).
  now rewrite IHn.
Qed.


Lemma download_run w p version build r N :
  artifact_at w (Update.download_url version build) = DlOpened r ->
  int_of_header (content_length r) = Return N ->
  read_fault r = None ->
  faults w = [] ->
  quiet w = false ->
  wp (Update.download p version build) (download_post w p version build N (body r)) w.
Proof.
  destruct w as [q i la aa ca fl c rq fs ts sk me]; proj.
  intros Ha Hn Hf -> ->.
  unfold Update.download.
  repeat wp_loop.
  all: unfold Update._progress_bar, range; apply wp_bind; rewrite Hf.
  all: eapply loop_spec; [ first [eassumption | destruct p; reflexivity] | ].
  all: intros fs' c' rq' u' r' Hfs Hq -> -> -> ->; cbv beta iota.
  all: repeat wp_loop.
  all: unfold download_post; proj; fold (total_steps N).
  all: repeat split.
  all: try (unfold did; proj; app_norm; rewrite skipn_app_exact; reflexivity).
  all: try (unfold said; proj; app_norm; rewrite skipn_app_exact;
            rewrite !progress_of_app, progress_of_reports; reflexivity).
  all: match goal with
       | H : ?x = _ |- context [match ?x with _ => _ end] => rewrite H
       end.
  all: match goal with H : _ = Some _ |- _ = Some _ => rewrite H end; reflexivity.
Qed.

Lemma ceil_div_bounds a b :
  0 < b -> b * (ceil_div a b - 1) < a <= b * ceil_div a b.
Proof.
  intros Hb. unfold ceil_div.
  pose proof (Z.mul_div_le (- a) b Hb).
  pose proof (Z.mul_succ_div_gt (- a) b Hb).
  lia.
Qed.

Lemma block_Z : Z.of_nat block = Update.blocksize.
Proof. reflexivity. Qed.

(** The counter of each progress report: the last one shows the declared
    length, the earlier ones a multiple of the block size below it. *)
Lemma shown_counter N i :
  0 <= N -> 0 <= i < total_steps N ->
  (i = total_steps N - 1 -> Update.shown (total_steps N) Update.blocksize N i = N) /\
  (i < total_steps N - 1 ->
   Update.shown (total_steps N) Update.blocksize N i = i * Update.blocksize /\
   i * Update.blocksize < N).
Proof.
  intros HN Hi. unfold Update.shown, total_steps in *.
  pose proof (ceil_div_bounds N Update.blocksize eq_refl) as Hc.
  change Update.blocksize with 4608 in *.
  split; intros H.
  - destruct (Z.ltb_spec i (ceil_div N 4608 + 1 - 1)); [lia | reflexivity].
  - destruct (Z.ltb_spec i (ceil_div N 4608 + 1 - 1)); [|lia]. split; [reflexivity | nia].
Qed.


Lemma chunk_empty_iff (l : list Byte.byte) (k : nat) :
  firstn block (skipn k l) = [] <-> (List.length l <= k)%nat.
Proof.
  assert (Hb : (0 < block)%nat) by (apply Nat2Z.inj_lt; rewrite block_Z; reflexivity).
  split; intros H.
  - apply (f_equal (@List.length _)) in H.
    rewrite length_firstn, length_skipn in H. cbn [List.length] in H. lia.
  - rewrite skipn_all2 by lia. apply firstn_nil.
Qed.

(** C5 (as the code has it). A download without faults, not in quiet
    mode, of a reply that declares the length [0 <= N < 2^53] (where the
    floating-point quotient has the ceiling of the exact one): the loop runs
    [ceil(N/4608) + 1] times, one more than the ceiling, each turn reading
    a block of 4608 bytes and writing what it got; there is one progress
    report per turn; the last report shows exactly [N], each earlier one
    [i * 4608], which is below [N]; and when the body has [N] bytes the
    file receives exactly the body, the first [ceil(N/4608)] reads
    returning data and the last one nothing.  All of it holds when [N] is
    not a multiple of 4608 and when [N = 0]. *)
Theorem download_reads_and_reports w p version build r N :
  artifact_at w (Update.download_url version build) = DlOpened r ->
  int_of_header (content_length r) = Return N ->
  0 <= N ->
  N < 2 ^ 53 ->
  read_fault r = None ->
  faults w = [] ->
  quiet w = false ->
  let w' := snd (Update.download p version build w) in
  let total := ceil_div N Update.blocksize + 1 in
  fst (Update.download p version build w) = Return true /\
  did w w' = Urlopen (Update.download_url version build) :: Open p
             :: loop_calls p (body r) (Z.to_nat total) /\
  reads_of (did w w') = repeat (Z.to_nat Update.blocksize) (Z.to_nat total) /\
  progress_of (said w w')
  = map (progress_line "Downloading:" total Update.blocksize N) (seq 0 (Z.to_nat total))
    ++ [nl] /\
  Update.shown total Update.blocksize N (total - 1) = N /\
  (forall i, 0 <= i < total - 1 ->
             Update.shown total Update.blocksize N i = i * Update.blocksize /\
             i * Update.blocksize < N) /\
  (Z.of_nat (List.length (body r)) = N ->
   files w' p = Some (match files w p with Some b => b | None => [] end ++ body r) /\
   (forall i, (i < Z.to_nat (ceil_div N Update.blocksize))%nat ->
              firstn block (skipn (i * block) (body r)) <> []) /\
   firstn block (skipn (Z.to_nat (ceil_div N Update.blocksize) * block) (body r)) = []).
Proof.
  intros Ha Hn HN Hbound Hf Hfl Hq.
  destruct (download_run w p version build r N Ha Hn Hf Hfl Hq) as (Hr & Hd & Hp & Hfile).
  pose proof (ceil_div_bounds N Update.blocksize eq_refl) as Hc.
  pose proof block_Z as HB.
  cbv zeta. fold (total_steps N). fold block.
  assert (H0 : 0 <= ceil_div N Update.blocksize).
  { change Update.blocksize with 4608 in *. lia. }
  repeat split.
  - exact Hr.
  - exact Hd.
  - rewrite Hd. change (reads_of (?a :: ?b :: ?l)) with (reads_of l).
    apply reads_of_loop_calls.
  - exact Hp.
  - apply (shown_counter N (total_steps N - 1)); unfold total_steps; lia.
  - apply (shown_counter N i); unfold total_steps in *; lia.
  - apply (shown_counter N i); unfold total_steps in *; lia.
  - rewrite Hfile. f_equal. f_equal. apply firstn_all2.
    unfold total_steps. change Update.blocksize with 4608 in *. nia.
  - intros i Hi E. apply chunk_empty_iff in E.
    change Update.blocksize with 4608 in *. nia.
  - apply chunk_empty_iff. change Update.blocksize with 4608 in *. nia.
Qed.

(** A witness of C5: five bytes are declared and sent. *)
Lemma download_reads_and_reports_witness :
  fst (Update.download DownloadData "1.16.5" "205" demo) = Return true /\
  reads_of (did demo (snd (Update.download DownloadData "1.16.5" "205" demo)))
  = repeat (Z.to_nat Update.blocksize) (Z.to_nat (ceil_div 5 Update.blocksize + 1)) /\
  Update.shown (ceil_div 5 Update.blocksize + 1) Update.blocksize 5
               (ceil_div 5 Update.blocksize + 1 - 1) = 5.
Proof.
  pose proof (download_reads_and_reports demo DownloadData "1.16.5" "205"
                (mkReply (Some "5"%string) demo_artifact None) 5
                eq_refl eq_refl ltac:(lia) ltac:(lia) eq_refl eq_refl eq_refl) as H.
  cbv zeta in H. destruct H as (H1 & _ & H3 & _ & H5 & _).
  exact (conj H1 (conj H3 H5)).
Defined.

(** C5 as stated fails: with five bytes declared the ceiling is 1 and the
    loop reads twice; with no bytes declared the ceiling is 0 and the loop
    reads once. *)
Lemma download_reads_exceed_ceiling :
  List.length (reads_of (did demo (snd (Update.download DownloadData "1.16.5" "205" demo))))
  <> Z.to_nat (ceil_div 5 Update.blocksize) /\
  List.length (reads_of (did demo_empty
                             (snd (Update.download DownloadData "1.16.5" "205" demo_empty))))
  <> Z.to_nat (ceil_div 0 Update.blocksize).
Proof. vm_compute. split; discriminate. Qed.

(** The two runs in full: what is read, what is shown, what is written. *)
Example download_five_bytes :
  let w' := snd (Update.download DownloadData "1.16.5" "205" demo) in
  reads_of (did demo w') = [4608%nat; 4608%nat] /\
  progress_of (said demo w')
  = [Update.bar "Downloading:" 60 30 0 5; Update.bar "Downloading:" 60 60 5 5; nl] /\
  files w' DownloadData = Some demo_artifact.
Proof. vm_compute. auto. Qed.

Example download_no_bytes :
  let w' := snd (Update.download DownloadData "1.16.5" "205" demo_empty) in
  fst (Update.download DownloadData "1.16.5" "205" demo_empty) = Return true /\
  reads_of (did demo_empty w') = [4608%nat] /\
  progress_of (said demo_empty w') = [Update.bar "Downloading:" 60 60 0 0; nl] /\
  files w' DownloadData = Some [].
Proof. vm_compute. auto. Qed.

(** ** Quiet mode is a side channel *)

Section Respects.

Context {A : Type}.

Lemma respects_ret (a : A) : respects (ret a).
Proof. intros w1 w2 H. auto. Qed.

Lemma respects_raise e : respects (@raise A e).
Proof. intros w1 w2 H. auto. Qed.

Lemma respects_lift (r : result A) : respects (lift r).
Proof. intros w1 w2 H. auto. Qed.

Lemma respects_get (f : world -> A) :
  (forall w, f w = f (erase w)) -> respects (get f).
Proof.
  intros Hf w1 w2 H. split; auto. cbn. rewrite (Hf w1), (Hf w2). now rewrite H.
Qed.

Lemma respects_bind {B} (m : M B) (k : B -> M A) :
  respects m -> (forall b, respects (k b)) -> respects (bind m k).
Proof.
  intros Hm Hk w1 w2 H. unfold bind. destruct (Hm w1 w2 H) as [Hr Hw].
  destruct (m w1) as [[b1|e1] u1], (m w2) as [[b2|e2] u2]; cbn in *;
    try discriminate.
  - injection Hr as ->. now apply Hk.
  - injection Hr as ->. auto.
Qed.

Lemma respects_try (m : M A) (h : exn -> M A) :
  respects m -> (forall e, respects (h e)) -> respects (try_except m h).
Proof.
  intros Hm Hh w1 w2 H. unfold try_except. destruct (Hm w1 w2 H) as [Hr Hw].
  destruct (m w1) as [[b1|e1] u1], (m w2) as [[b2|e2] u2]; cbn in *;
    try discriminate.
  - injection Hr as ->. auto.
  - injection Hr as ->. now apply Hh.
Qed.

End Respects.

Lemma respects_modify f :
  (forall w, erase (f w) = f (erase w)) -> respects (modify f).
Proof.
  intros Hf w1 w2 H. split; auto. unfold alike in *. cbn.
  rewrite (Hf w1), (Hf w2). now rewrite H.
Qed.

Lemma silent_respects m : silent m -> respects m.
Proof.
  intros Hm w1 w2 H. destruct (Hm w1) as [R1 A1], (Hm w2) as [R2 A2].
  split; [congruence|]. unfold alike in *. congruence.
Qed.

Lemma talks_silent m P : talks m P -> silent m.
Proof.
  intros H w. destruct (H w) as (l & E & _). rewrite E. split; auto.
  destruct w; reflexivity.
Qed.

Lemma silent_unless_quiet m : silent m -> silent (unless_quiet m).
Proof.
  intros Hm w. unfold unless_quiet. destruct (negb (quiet w)); [apply Hm|].
  split; reflexivity.
Qed.

Lemma respects_unless_quiet m : silent m -> respects (unless_quiet m).
Proof.
  intros Hm w1 w2 H.
  destruct (silent_unless_quiet m Hm w1) as [R1 A1].
  destruct (silent_unless_quiet m Hm w2) as [R2 A2].
  split; [congruence|]. unfold alike in *. congruence.
Qed.

Lemma respects_for_each {X} (l : list X) body :
  (forall x, respects (body x)) -> respects (for_each l body).
Proof.
  intros Hb. induction l; cbn [for_each].
  - apply respects_ret.
  - apply respects_bind; auto.
Qed.

Lemma respects_next_fault : respects next_fault.
Proof.
  intros w1 w2 H. unfold alike, erase in H.
  destruct w1 as [q1 i1 la1 aa1 ca1 fl1 c1 rq1 fs1 ts1 sk1 me1].
  destruct w2 as [q2 i2 la2 aa2 ca2 fl2 c2 rq2 fs2 ts2 sk2 me2].
  cbn in H. injection H as -> -> -> -> -> -> -> -> -> ->.
  unfold next_fault; cbn. destruct fl2; cbn; split; reflexivity.
Qed.

Ltac erase_refl := intros w; destruct w; reflexivity.

Ltac resp :=
  lazymatch goal with
  | |- respects (bind _ _) => apply respects_bind; [ | intros ? ]
  | |- respects (try_except _ _) => apply respects_try; [ | intros ? ]
  | |- respects (ret _) => apply respects_ret
  | |- respects (raise _) => apply respects_raise
  | |- respects (lift _) => apply respects_lift
  | |- respects (get _) => apply respects_get; erase_refl
  | |- respects (modify _) => apply respects_modify; erase_refl
  | |- respects next_fault => apply respects_next_fault
  | |- respects (for_each _ _) => apply respects_for_each; intros ?
  | |- respects (unless_quiet _) => apply respects_unless_quiet
  | |- respects (output _) => apply respects_unless_quiet
  | |- respects (error_report _ _) =>
      apply silent_respects; eapply talks_silent; apply error_report_talks
  | |- respects (Update._url_report _) =>
      apply silent_respects; eapply talks_silent; apply url_report_talks
  | |- respects (record _) => unfold record
  | |- respects (store _ _) => unfold store
  | |- respects (urlopen_artifact _) => unfold urlopen_artifact
  | |- respects (open_append _) => unfold open_append
  | |- respects (file_write _ _) => unfold file_write
  | |- respects (sock_read _) => unfold sock_read
  | |- respects (Update._progress_bar _ _ _ _ _) => unfold Update._progress_bar
  | |- respects (match ?x with _ => _ end) => destruct x
  | |- respects (if ?x then _ else _) => destruct x
  | |- respects (let _ := _ in _) => cbv zeta
  | |- silent (print _) => eapply talks_silent; apply talks_print
  | |- silent (bind _ _) => eapply talks_silent; talks_seq
  end.

Lemma download_respects p version build : respects (Update.download p version build).
Proof.
  unfold Update.download.
  repeat resp.
Qed.

Lemma files_erase w : files (erase w) = files w.
Proof. destruct w; reflexivity. Qed.

Lemma calls_erase w : calls (erase w) = calls w.
Proof. destruct w; reflexivity. Qed.

(** C9. From the same world, [download] in quiet mode and not in quiet
    mode returns the same result, leaves the same files and makes the
    same calls; the two final worlds differ in the console at most. *)
Theorem download_quiet_is_side_channel w p version build :
  let quietly := Update.download p version build (set_quiet true w) in
  let loudly := Update.download p version build (set_quiet false w) in
  fst quietly = fst loudly /\
  files (snd quietly) = files (snd loudly) /\
  calls (snd quietly) = calls (snd loudly) /\
  alike (snd quietly) (snd loudly).
Proof.
  cbv zeta.
  assert (H : alike (set_quiet true w) (set_quiet false w)) by (destruct w; reflexivity).
  destruct (download_respects p version build _ _ H) as [Hr Hw].
  repeat split; auto.
  - rewrite <- (files_erase (snd (Update.download p version build (set_quiet true w)))).
    rewrite Hw. apply files_erase.
  - rewrite <- (calls_erase (snd (Update.download p version build (set_quiet true w)))).
    rewrite Hw. apply calls_erase.
Qed.

(** In quiet mode a download that succeeds prints nothing, and one that
    fails still prints its error report. *)
Example download_quietly :
  said demo_quiet (snd (Update.download DownloadData "1.16.5" "205" demo_quiet)) = [] /\
  fst (Update.download DownloadData "1.16.5" "205" demo_quiet) = Return true /\
  fst (Update.download DownloadData "1.16.5" "205" (set_quiet true demo_no_artifact))
  = Return false /\
  In (Traceback (HTTPError 404 "Not Found"))
     (said (set_quiet true demo_no_artifact)
           (snd (Update.download DownloadData "1.16.5" "205"
                                 (set_quiet true demo_no_artifact)))).
Proof. vm_compute. repeat split; auto. tauto. Qed.

(** ** The installed state *)

Section Keeps.

Context {A : Type}.

Lemma keeps_ret (a : A) : keeps (ret a).
Proof. intros w. reflexivity. Qed.

Lemma keeps_raise e : keeps (@raise A e).
Proof. intros w. reflexivity. Qed.

Lemma keeps_lift (r : result A) : keeps (lift r).
Proof. intros w. reflexivity. Qed.

Lemma keeps_get (f : world -> A) : keeps (get f).
Proof. intros w. reflexivity. Qed.

Lemma keeps_bind {B} (m : M B) (k : B -> M A) :
  keeps m -> (forall b, keeps (k b)) -> keeps (bind m k).
Proof.
  intros Hm Hk w. unfold bind. specialize (Hm w).
  destruct (m w) as [[b|e] w1]; cbn in *; auto.
  rewrite <- Hm. apply Hk.
Qed.

Lemma keeps_try (m : M A) (h : exn -> M A) :
  keeps m -> (forall e, keeps (h e)) -> keeps (try_except m h).
Proof.
  intros Hm Hh w. unfold try_except. specialize (Hm w).
  destruct (m w) as [[a|e] w1]; cbn in *; auto.
  rewrite <- Hm. apply Hh.
Qed.

End Keeps.

Lemma keeps_modify f : (forall w, installed (f w) = installed w) -> keeps (modify f).
Proof. intros Hf w. apply Hf. Qed.

Lemma keeps_talks m P : talks m P -> keeps m.
Proof. intros H w. destruct (H w) as (l & E & _). rewrite E. destruct w; reflexivity. Qed.

Lemma keeps_unless_quiet m : keeps m -> keeps (unless_quiet m).
Proof. intros Hm w. unfold unless_quiet. destruct (negb (quiet w)); [apply Hm | reflexivity]. Qed.

Lemma keeps_for_each {X} (l : list X) body :
  (forall x, keeps (body x)) -> keeps (for_each l body).
Proof.
  intros Hb. induction l; cbn [for_each].
  - apply keeps_ret.
  - apply keeps_bind; auto.
Qed.

Lemma keeps_next_fault : keeps next_fault.
Proof. intros w. unfold next_fault. destruct w as [? ? ? ? ? [|f fl] ? ? ? ? ? ?]; reflexivity. Qed.

Ltac installed_refl := intros w; destruct w; reflexivity.

Ltac keep :=
  lazymatch goal with
  | |- keeps (bind _ _) => apply keeps_bind; [ | intros ? ]
  | |- keeps (try_except _ _) => apply keeps_try; [ | intros ? ]
  | |- keeps (ret _) => apply keeps_ret
  | |- keeps (raise _) => apply keeps_raise
  | |- keeps (lift _) => apply keeps_lift
  | |- keeps (get _) => apply keeps_get
  | |- keeps (modify _) => apply keeps_modify; installed_refl
  | |- keeps next_fault => apply keeps_next_fault
  | |- keeps (for_each _ _) => apply keeps_for_each; intros ?
  | |- keeps (unless_quiet _) => apply keeps_unless_quiet
  | |- keeps (error_report _ _) => eapply keeps_talks; apply error_report_talks
  | |- keeps (Update._url_report _) => eapply keeps_talks; apply url_report_talks
  | |- keeps (FileUtil._fail_install _) => eapply keeps_talks; apply fail_install_talks
  | |- keeps (match ?x with _ => _ end) => destruct x
  | |- keeps (if ?x then _ else _) => destruct x
  | |- keeps (let _ := _ in _) => cbv zeta
  | |- keeps (let (_, _) := ?x in _) => destruct x
  | |- keeps ?m => let h := head_of m in unfold h
  end
with head_of m :=
  lazymatch m with
  | ?f _ => head_of f
  | _ => m
  end.

Lemma keeps_download p version build : keeps (Update.download p version build).
Proof. repeat keep. Qed.

Lemma keeps_install : keeps FileUtil.install.
Proof. repeat keep. Qed.

Lemma keeps_select val choice default name :
  keeps (ServerUpdater._select val choice default name).
Proof. repeat keep. Qed.

Lemma keeps_ask lines text choice default name :
  keeps (ServerUpdater.ask lines text choice default name).
Proof.
  induction lines as [|l lines IH]; cbn [ServerUpdater.ask].
  - repeat first [apply keeps_select | keep].
  - repeat first [apply keeps_select | apply IH | keep].
Qed.

Lemma keeps_version_select dv db : keeps (ServerUpdater.version_select dv db).
Proof.
  unfold ServerUpdater.version_select.
  repeat first [apply keeps_select | apply keeps_ask | keep].
Qed.

Lemma keeps_confirm : keeps ServerUpdater.confirm.
Proof. repeat keep. Qed.

Lemma keeps_stage : keeps ServerUpdater.stage.
Proof. repeat keep. Qed.

(** C10. The installed state after [get_new], by the course of the run:
    it is the selected version and build when the selection yields a
    pair, the user does not decline, the temporary directory is made, and
    [download] and then [install] return true; in every other course
    (no selection, a declined confirmation, a failed download, a failed
    install, an exception anywhere) it is what it was. *)
Theorem get_new_installed_state dv db w :
  let w' := snd (ServerUpdater.get_new dv db w) in
  match ServerUpdater.version_select dv db w with
  | (Return (Some (ver, build)), w1) =>
      match ServerUpdater.confirm w1 with
      | (Return true, w2) =>
          match ServerUpdater.stage w2 with
          | (Return _, w3) =>
              match Update.download DownloadData ver build w3 with
              | (Return true, w4) =>
                  match FileUtil.install w4 with
                  | (Return true, _) => installed w' = (ver, BStr build)
                  | _ => installed w' = installed w
                  end
              | _ => installed w' = installed w
              end
          | _ => installed w' = installed w
          end
      | _ => installed w' = installed w
      end
  | _ => installed w' = installed w
  end.
Proof.
  cbv zeta. unfold ServerUpdater.get_new, bind, ret.
  pose proof (keeps_version_select dv db w) as K1.
  destruct (ServerUpdater.version_select dv db w) as [[[[ver build]|]|e] w1];
    cbn [fst snd] in *; auto.
  pose proof (keeps_confirm w1) as K2.
  destruct (ServerUpdater.confirm w1) as [[[|]|e] w2]; cbn [fst snd negb] in *;
    try congruence.
  pose proof (keeps_stage w2) as K3.
  destruct (ServerUpdater.stage w2) as [[[]|e] w3]; cbn [fst snd] in *;
    try congruence.
  pose proof (keeps_download DownloadData ver build w3) as K4.
  destruct (Update.download DownloadData ver build w3) as [[[|]|e] w4];
    cbn [fst snd negb] in *; try congruence.
  pose proof (keeps_install w4) as K5.
  destruct (FileUtil.install w4) as [[[|]|e] w5]; cbn [fst snd negb] in *;
    try congruence.
  destruct w5 as [q i la aa ca fl c rq fs ts sk me].
  unfold output, unless_quiet, print, emit, modify.
  cbn. destruct q; reflexivity.
Qed.

(** The scenario of a newer build: 1.16.5 build 200 is installed, the API
    offers build 205; [check] says so, and [get_new] with the defaults
    downloads it, installs it and records it. *)
Example update_to_newer_build :
  let w' := snd (ServerUpdater.get_new "latest" "latest" demo) in
  fst (ServerUpdater.check demo) = Return true /\
  installed demo = ("1.16.5"%string, BInt 200) /\
  installed w' = ("1.16.5"%string, BStr "205") /\
  files w' Target = Some demo_artifact.
Proof. vm_compute. auto. Qed.

(** The same with the download refused: nothing is recorded and the jar
    is untouched. *)
Example update_without_artifact :
  let w' := snd (ServerUpdater.get_new "latest" "latest" demo_no_artifact) in
  installed w' = installed demo_no_artifact /\
  files w' Target = Some demo_jar.
Proof. vm_compute. auto. Qed.

(** In interactive mode a user who declines, and one whose input ends
    before a version is chosen, leave the state as it was. *)
Example update_declined :
  let w := set_stdin [""%string; "205"%string; "No"%string]
                     (set_self (mkServerUpdater "1.16.5" (BInt 200) [] true None
                                                (su_fileutil demo_updater)) demo) in
  fst (ServerUpdater.get_new "latest" "latest" w) = Return tt /\
  installed (snd (ServerUpdater.get_new "latest" "latest" w)) = installed w /\
  calls (snd (ServerUpdater.get_new "latest" "latest" w))
  = [Urlopen Update._base; Urlopen (Update._base ++ "/1.16.5")%string].
Proof. vm_compute. auto. Qed.

Example update_input_ends :
  let w := set_stdin ["1.17"%string]
                     (set_self (mkServerUpdater "1.16.5" (BInt 200) [] true None
                                                (su_fileutil demo_updater)) demo) in
  fst (ServerUpdater.get_new "latest" "latest" w) = Raise EOFError /\
  installed (snd (ServerUpdater.get_new "latest" "latest" w)) = installed w.
Proof. vm_compute. auto. Qed.

(** * Further properties *)

(** ** The install sequence and the recovery on their own *)

(** X2. When the backup copy, the removal and the copy-in succeed and so does the
    cleanup, [install] returns true: the target holds the downloaded bytes,
    the temporary directory is emptied, the updater object is untouched, the
    file calls are exactly the four steps in order, and in quiet mode
    nothing is printed. *)
Theorem install_success w :
  copy_in_ok w -> cleanup_ok w ->
  let w' := snd (FileUtil.install w) in
  fst (FileUtil.install w) = Return true /\
  files w' Target = files w DownloadData /\
  files w' Backup = None /\
  files w' DownloadData = None /\
  self w' = self w /\
  did w w' = [Copy Target Backup; Remove Target; Copy DownloadData Target; Cleanup] /\
  (quiet w = true -> said w w' = []).
Proof.
  intros Hc Hk. cbv zeta.
  change (wp FileUtil.install (fun r w' =>
    r = Return true /\
    files w' Target = files w DownloadData /\
    files w' Backup = None /\
    files w' DownloadData = None /\
    self w' = self w /\
    did w w' = [Copy Target Backup; Remove Target; Copy DownloadData Target; Cleanup] /\
    (quiet w = true -> said w w' = [])) w).
  unfold copy_in_ok, backup_ok, cleanup_ok in *.
  destruct w as [q i la aa ca fl c rq fs ts sk me]; proj.
  destruct Hc as ((Ht & Hf & H1) & H2 & H3 & H4).
  unfold FileUtil.install.
  repeat wp_step.
  all: try congruence.
  repeat split.
  - unfold did; proj; app_norm; now rewrite skipn_app_exact.
  - intros ->. unfold said; proj; app_norm. rewrite skipn_app_exact. reflexivity.
Qed.

Lemma install_success_witness :
  fst (FileUtil.install (demo_staged [])) = Return true /\
  files (snd (FileUtil.install (demo_staged []))) Target = Some demo_artifact.
Proof.
  assert (Hc : copy_in_ok (demo_staged [])).
  { unfold copy_in_ok, backup_ok. simpl. repeat split; discriminate. }
  assert (Hk : cleanup_ok (demo_staged [])) by reflexivity.
  pose proof (install_success (demo_staged []) Hc Hk) as H.
  cbv zeta in H. destruct H as (H1 & H2 & _).
  split; [exact H1 | exact H2].
Defined.

(** X3. The final cleanup is not guarded: when it fails after the copy-in
    succeeded, the exception leaves [install].  The new file is in place
    and neither a failure report nor a traceback is printed.  What is
    left of the temporary directory depends on how far the cleanup got:
    the backup holds the original or is gone, the download is there or is
    gone; both are there when the cleanup failed before it deleted
    anything. *)
Theorem install_cleanup_failure_escapes w :
  copy_in_ok w -> ~ cleanup_ok w ->
  let w' := snd (FileUtil.install w) in
  (exists e, fst (FileUtil.install w) = Raise e) /\
  files w' Target = files w DownloadData /\
  (files w' Backup = files w Target \/ files w' Backup = None) /\
  (files w' DownloadData = files w DownloadData \/ files w' DownloadData = None) /\
  (forall e, hd NoFault (tl (tl (tl (faults w)))) = FailBefore e ->
             files w' Backup = files w Target /\
             files w' DownloadData = files w DownloadData) /\
  did w w' = [Copy Target Backup; Remove Target; Copy DownloadData Target; Cleanup] /\
  ~ In (Print "Fail point: File Copy") (said w w') /\
  (forall e, ~ In (Traceback e) (said w w')).
Proof.
  intros Hc Hk. cbv zeta.
  change (wp FileUtil.install (fun r w' =>
    (exists e, r = Raise e) /\
    files w' Target = files w DownloadData /\
    (files w' Backup = files w Target \/ files w' Backup = None) /\
    (files w' DownloadData = files w DownloadData \/ files w' DownloadData = None) /\
    (forall e, hd NoFault (tl (tl (tl (faults w)))) = FailBefore e ->
               files w' Backup = files w Target /\
               files w' DownloadData = files w DownloadData) /\
    did w w' = [Copy Target Backup; Remove Target; Copy DownloadData Target; Cleanup] /\
    ~ In (Print "Fail point: File Copy") (said w w') /\
    (forall e, ~ In (Traceback e) (said w w'))) w).
  unfold copy_in_ok, backup_ok, cleanup_ok in *.
  destruct w as [q i la aa ca fl c rq fs ts sk me]; proj.
  destruct Hc as ((Ht & Hf & H1) & H2 & H3 & H4).
  unfold FileUtil.install.
  repeat wp_step.
  all: try congruence.
  all: (split; [eauto|]); (split; [reflexivity|]).
  all: (split; [first [left; congruence | right; reflexivity]|]).
  all: (split; [first [left; congruence | right; reflexivity]|]).
  all: (split; [intros e0 He0; first [discriminate He0 | split; congruence]|]).
  all: (split; [unfold did; proj; app_norm; now rewrite skipn_app_exact|]).
  all: unfold said; proj; app_norm; rewrite skipn_app_exact.
  all: destruct q; simpl; intuition discriminate.
Qed.

(** A witness of X3: the cleanup is refused outright, and everything is
    still there. *)
Lemma install_cleanup_failure_witness :
  let w := demo_staged [NoFault; NoFault; NoFault; FailBefore (OSError "Directory not empty")] in
  fst (FileUtil.install w) = Raise (OSError "Directory not empty") /\
  files (snd (FileUtil.install w)) Target = Some demo_artifact /\
  files (snd (FileUtil.install w)) Backup = Some demo_jar.
Proof.
  cbv zeta.
  assert (Hc : copy_in_ok (demo_staged [NoFault; NoFault; NoFault; FailBefore (OSError "Directory not empty")])).
  { unfold copy_in_ok, backup_ok. simpl. repeat split; discriminate. }
  assert (Hk : ~ cleanup_ok (demo_staged [NoFault; NoFault; NoFault; FailBefore (OSError "Directory not empty")])).
  { unfold cleanup_ok. simpl. discriminate. }
  pose proof (install_cleanup_failure_escapes _ Hc Hk) as H.
  cbv zeta in H. destruct H as (_ & H2 & _ & _ & H5 & _).
  split; [reflexivity | split; [exact H2 | exact (proj1 (H5 _ eq_refl))]].
Defined.

(** The cleanup can also fail half way: here the backup is already gone
    when it raises, and the new file is in place. *)
Example install_cleanup_interrupted :
  let w := demo_staged [NoFault; NoFault; NoFault;
                        FailPartial (OSError "Directory not empty") 1] in
  fst (FileUtil.install w) = Raise (OSError "Directory not empty") /\
  files (snd (FileUtil.install w)) Target = Some demo_artifact /\
  files (snd (FileUtil.install w)) Backup = None /\
  files (snd (FileUtil.install w)) DownloadData = Some demo_artifact.
Proof. vm_compute. auto. Qed.

(** X4. [_recover_backup] on its own, started with a backup in place: it
    never touches the backup, the download or the updater object, and it
    ends in one of two ways, true with the target holding the backup and the
    recovery announced, or false with both critical lines printed. *)
Theorem recover_backup_outcome w :
  fu_temp (su_fileutil (self w)) <> None ->
  files w Backup <> None ->
  let r := fst (FileUtil._recover_backup w) in
  let w' := snd (FileUtil._recover_backup w) in
  files w' Backup = files w Backup /\
  files w' DownloadData = files w DownloadData /\
  self w' = self w /\
  ((r = Return true /\ files w' Target = files w Backup /\
    In (Print "Your file has been successfully recovered.") (said w w')) \/
   (r = Return false /\
    In (Print FileUtil.critical) (said w w') /\
    In (Print FileUtil.not_recovered) (said w w'))).
Proof.
  intros Ht Hb. cbv zeta.
  destruct (recover_backup_spec w Ht Hb) as (l & d & Hl & Hd & Hs & H1 & H2 & H).
  rewrite (said_ext _ _ _ Hl). auto.
Qed.

Lemma recover_backup_outcome_witness :
  let w := demo_staged [] in
  let w0 := set_files (upd Backup (Some demo_jar) (upd Target None (files w))) w in
  fst (FileUtil._recover_backup w0) = Return true /\
  files (snd (FileUtil._recover_backup w0)) Target = Some demo_jar.
Proof.
  cbv zeta.
  set (w0 := set_files (upd Backup (Some demo_jar) (upd Target None (files (demo_staged []))))
                       (demo_staged [])).
  assert (Ht : fu_temp (su_fileutil (self w0)) <> None) by (simpl; discriminate).
  assert (Hb : files w0 Backup <> None) by (simpl; discriminate).
  pose proof (recover_backup_outcome w0 Ht Hb) as H. cbv zeta in H.
  destruct H as (_ & _ & _ & [(H1 & H2 & _) | (H1 & _)]).
  - split; [exact H1 | exact H2].
  - discriminate H1.
Defined.

(** X5. A target that is already gone does not stop the recovery: the
    [FileNotFoundError] of the removal is reported as such and the backup is
    copied back all the same; only a missing backup then makes it fail. *)
Theorem recover_backup_tolerates_missing_target w :
  fu_temp (su_fileutil (self w)) <> None ->
  files w Target = None ->
  hd NoFault (faults w) = NoFault ->
  hd NoFault (tl (faults w)) = NoFault ->
  let w' := snd (FileUtil._recover_backup w) in
  did w w' = [Remove Target; Copy Backup Target] /\
  In (Print "# File not found. Continuing operation...") (said w w') /\
  match files w Backup with
  | Some b =>
      fst (FileUtil._recover_backup w) = Return true /\ files w' Target = Some b
  | None =>
      fst (FileUtil._recover_backup w) = Return false /\ files w' Target = None /\
      In (Print FileUtil.critical) (said w w')
  end.
Proof.
  intros Ht Hn H1 H2. cbv zeta.
  change (wp FileUtil._recover_backup (fun r w' =>
    did w w' = [Remove Target; Copy Backup Target] /\
    In (Print "# File not found. Continuing operation...") (said w w') /\
    match files w Backup with
    | Some b => r = Return true /\ files w' Target = Some b
    | None => r = Return false /\ files w' Target = None /\
              In (Print FileUtil.critical) (said w w')
    end) w).
  destruct w as [q i la aa ca fl c rq fs ts sk me]; proj.
  unfold FileUtil._recover_backup.
  repeat wp_prim.
  all: try congruence.
  all: try discriminate.
  all: split; [unfold did; proj; app_norm; now rewrite skipn_app_exact|].
  all: split; [unfold said; proj; app_norm; rewrite skipn_app_exact; find_in|].
  all: repeat split; auto.
  all: try (unfold said; proj; app_norm; rewrite skipn_app_exact; find_in).
Qed.

Lemma recover_backup_tolerates_witness :
  let w := set_files (upd Backup (Some demo_jar) (upd Target None demo_files)) (demo_staged []) in
  fst (FileUtil._recover_backup w) = Return true /\
  files (snd (FileUtil._recover_backup w)) Target = Some demo_jar.
Proof.
  cbv zeta.
  set (w := set_files (upd Backup (Some demo_jar) (upd Target None demo_files)) (demo_staged [])).
  assert (Ht : fu_temp (su_fileutil (self w)) <> None) by (simpl; discriminate).
  pose proof (recover_backup_tolerates_missing_target w Ht eq_refl eq_refl eq_refl) as H.
  cbv zeta in H. destruct H as (_ & _ & H). exact H.
Defined.

(** X7. [load_config] changes nothing but the console, and in quiet mode
    whatever it prints is the report of a failure that ends in the
    sentinel. *)
Theorem load_config_only_talks config w :
  exists l, snd (FileUtil.load_config config w) = set_console (console w ++ l) w /\
            (quiet w = true ->
             forall t, In t l ->
               fst (FileUtil.load_config config w) = Return FileUtil.sentinel).
Proof.
  change (wp (FileUtil.load_config config) (fun r w' =>
    exists l, w' = set_console (console w ++ l) w /\
              (quiet w = true -> forall t, In t l -> r = Return FileUtil.sentinel)) w).
  destruct w as [q i la aa ca fl c rq fs ts sk me]; proj.
  unfold FileUtil.load_config.
  repeat wp_more.
  all: app_norm; eexists; (split; [reflexivity|]).
  all: intros ->; cbn [app]; intros t Ht; try reflexivity.
  all: try (destruct Ht; contradiction).
  all: try contradiction.
Qed.

(** ** The update check and the API requests *)

Ltac use_eqs :=
  repeat match goal with
         | H : ?x = _ |- context [match ?x with _ => _ end] => rewrite H
         | H : ?x = _ |- context [if ?x then _ else _] => rewrite H
         end.

Lemma check_verdict w :
  fst (ServerUpdater.check w)
  = check_outcome (listing_at w) (su_version (self w)) (su_buildnum (self w)).
Proof.
  change (wp ServerUpdater.check
             (fun r _ => r = check_outcome (listing_at w) (su_version (self w))
                                           (su_buildnum (self w))) w).
  destruct w as [q i la aa ca fl c rq fs ts sk me]; proj.
  unfold ServerUpdater.check, check_outcome, newest.
  repeat wp_more.
  all: use_eqs; reflexivity.
Qed.

(** X10. [check] changes nothing but the console and the call trace; it opens
    the version list, and after it at most the build list of the installed
    version; and in quiet mode whatever it prints is the report of a failed
    request, after which it returns false. *)
Theorem check_is_read_only w :
  exists l d,
    snd (ServerUpdater.check w) = logged l d w /\
    (d = [Urlopen (Update.listing_url None None)] \/
     d = [Urlopen (Update.listing_url None None);
          Urlopen (Update.listing_url (Some (su_version (self w))) None)]) /\
    (quiet w = true ->
     l = [] \/ (fst (ServerUpdater.check w) = Return false /\ exists e, In (Traceback e) l)).
Proof.
  change (wp ServerUpdater.check (fun r w' =>
    exists l d,
    w' = logged l d w /\
    (d = [Urlopen (Update.listing_url None None)] \/
     d = [Urlopen (Update.listing_url None None);
          Urlopen (Update.listing_url (Some (su_version (self w))) None)]) /\
    (quiet w = true -> l = [] \/ (r = Return false /\ exists e, In (Traceback e) l))) w).
  destruct w as [q i la aa ca fl c rq fs ts sk me]; proj.
  unfold ServerUpdater.check, logged.
  repeat wp_more.
  all: proj; app_norm; do 2 eexists; (split; [reflexivity|]).
  all: (split; [first [left; reflexivity | right; reflexivity]|]).
  all: intros ->; cbn [app].
  all: first [left; reflexivity | right; split; [reflexivity | eexists; find_in]].
Qed.

(** X11. An empty list from the API is not guarded: when the version list is
    empty, or the version matches and its build list is empty, [check]
    raises [IndexError] instead of returning false. *)
Theorem check_empty_listing_raises w :
  listing_at w (Update.listing_url None None) = Opened (Return []) \/
  (exists vs, listing_at w (Update.listing_url None None)
              = Opened (Return (su_version (self w) :: vs)) /\
              listing_at w (Update.listing_url (Some (su_version (self w))) None)
              = Opened (Return [])) ->
  fst (ServerUpdater.check w) = Raise (IndexError "list index out of range").
Proof.
  rewrite check_verdict. unfold check_outcome, newest.
  intros [-> | (vs & -> & H)]; [reflexivity|].
  cbn [first]. now rewrite String.eqb_refl, H.
Qed.

Lemma check_empty_listing_witness :
  let w := mkWorld false [] (fun _ => Opened (Return [])) demo_download
                   (demo_config NotAFile) [] [] [] demo_files 0
                   (mkSocket [] 0 None) demo_updater in
  fst (ServerUpdater.check w) = Raise (IndexError "list index out of range").
Proof.
  cbv zeta. apply check_empty_listing_raises. left. reflexivity.
Defined.

(** X12. [get_versions] makes exactly one request, for the version list, and
    changes nothing but the console and the call trace: it returns the list
    delivered, lets a failure to read the reply escape, and returns [None]
    after reporting a request that failed. *)
Theorem get_versions_outcome w :
  exists l,
    snd (Update.get_versions w) = logged l [Urlopen (Update.listing_url None None)] w /\
    fetch_outcome (listing_at w (Update.listing_url None None)) (fst (Update.get_versions w)) l.
Proof.
  change (wp Update.get_versions (fun r w' =>
    exists l, w' = logged l [Urlopen (Update.listing_url None None)] w /\
              fetch_outcome (listing_at w (Update.listing_url None None)) r l) w).
  destruct w as [q i la aa ca fl c rq fs ts sk me]; proj.
  unfold logged, fetch_outcome.
  repeat wp_more.
  all: proj; app_norm; eexists; (split; [reflexivity|]).
  all: use_eqs; try reflexivity.
  split; [reflexivity|]. unfold fetch_reported. cbv beta in *. repeat split; find_in.
Qed.

(** X13. [get_buildnums] likewise, with the URL of the version asked for. *)
Theorem get_buildnums_outcome version w :
  exists l,
    snd (Update.get_buildnums version w)
    = logged l [Urlopen (Update.listing_url (Some version) None)] w /\
    fetch_outcome (listing_at w (Update.listing_url (Some version) None))
                  (fst (Update.get_buildnums version w)) l.
Proof.
  change (wp (Update.get_buildnums version) (fun r w' =>
    exists l, w' = logged l [Urlopen (Update.listing_url (Some version) None)] w /\
              fetch_outcome (listing_at w (Update.listing_url (Some version) None)) r l) w).
  destruct w as [q i la aa ca fl c rq fs ts sk me]; proj.
  unfold logged, fetch_outcome.
  repeat wp_more.
  all: proj; app_norm; eexists; (split; [reflexivity|]).
  all: use_eqs; try reflexivity.
  split; [reflexivity|]. unfold fetch_reported. cbv beta in *. repeat split; find_in.
Qed.

(** ** Error reports *)

Ltac not_among Hin :=
  exfalso; revert Hin; unfold rule; cbn [In append]; intros Hin;
  repeat match goal with
         | H : _ \/ _ |- _ => destruct H as [H | H]
         | H : Print _ = Print _ |- _ => discriminate H
         | H : Traceback _ = Print _ |- _ => discriminate H
         | H : False |- _ => destruct H
         end.

Ltac iff_in :=
  split;
  [ intros Hin;
    first [ solve [repeat split; first [reflexivity | discriminate]] | not_among Hin ]
  | intros Hyp; first [ find_in | discriminate Hyp | destruct Hyp; congruence ] ].

(** X14. [error_report] prints with [print], so in quiet mode too, and changes
    nothing else: the error name and the traceback are always there; the
    network section exactly when [net] is set, its reason lines exactly
    when the exception has a [reason], its code lines exactly when it has a
    [code]. *)
Theorem error_report_contents e net w :
  exists l,
    error_report e net w = (Return tt, set_console (console w ++ l) w) /\
    In (Print ("Error Name: " ++ str_of_exn e)) l /\
    In (Traceback e) l /\
    (In (Print "Extra Network Information:") l <-> net = true) /\
    (In (Print "We failed to reach the server.") l <-> net = true /\ reason_of e <> None) /\
    (In (Print "The server could not fulfill the request.") l
     <-> net = true /\ code_of e <> None).
Proof.
  revert w.
  change (talks (error_report e net) (fun l =>
    In (Print ("Error Name: " ++ str_of_exn e)) l /\
    In (Traceback e) l /\
    (In (Print "Extra Network Information:") l <-> net = true) /\
    (In (Print "We failed to reach the server.") l <-> net = true /\ reason_of e <> None) /\
    (In (Print "The server could not fulfill the request.") l
     <-> net = true /\ code_of e <> None))).
  unfold error_report.
  destruct net, (reason_of e) eqn:Hr, (code_of e) eqn:Hc.
  all: (eapply talks_weaken; [talks_seq | talks_split]).
  all: cbn [app].
  all: split; [find_in|]; split; [find_in|].
  all: split; [iff_in | split; iff_in].
Qed.

(** ** Downloads that fail *)

(** X15. When the download request is refused, [download] makes that one call
    and touches no file: a [URLError] is reported and false returned, any
    other exception leaves [download] with no report. *)
Theorem download_refused w p version build e :
  artifact_at w (Update.download_url version build) = DlOpenFails e ->
  let r := fst (Update.download p version build w) in
  let w' := snd (Update.download p version build w) in
  did w w' = [Urlopen (Update.download_url version build)] /\
  files w' = files w /\
  faults w' = faults w /\
  (if is_URLError e
   then r = Return false /\ download_reported e (said w w')
   else r = Raise e /\ forall e', ~ In (Traceback e') (said w w')).
Proof.
  intros Ha. cbv zeta.
  change (wp (Update.download p version build) (fun r w' =>
    did w w' = [Urlopen (Update.download_url version build)] /\
    files w' = files w /\
    faults w' = faults w /\
    (if is_URLError e
     then r = Return false /\ download_reported e (said w w')
     else r = Raise e /\ forall e', ~ In (Traceback e') (said w w'))) w).
  destruct w as [q i la aa ca fl c rq fs ts sk me]; proj.
  unfold Update.download.
  repeat wp_more.
  all: (split; [unfold did; proj; app_norm; now rewrite skipn_app_exact|]).
  all: do 2 (split; [reflexivity|]).
  all: use_eqs.
  all: (split; [reflexivity|]).
  all: unfold said; proj; app_norm; rewrite skipn_app_exact.
  - cbv beta in *. unfold download_reported. repeat split; find_in.
  - intros e'. destruct q; cbn [app In]; intuition discriminate.
Qed.

Lemma download_refused_witness :
  fst (Update.download DownloadData "1.16.5" "205" demo_no_artifact) = Return false /\
  files (snd (Update.download DownloadData "1.16.5" "205" demo_no_artifact))
  = files demo_no_artifact.
Proof.
  pose proof (download_refused demo_no_artifact DownloadData "1.16.5" "205"
                               (HTTPError 404 "Not Found") eq_refl) as H.
  cbv zeta in H. destruct H as (_ & H2 & _ & H4).
  split; [exact (proj1 H4) | exact H2].
Defined.

(** X16. A reply without a usable [content-length] makes [download] raise
    (the conversion is not guarded) before the destination is opened: one
    call, no file touched, nothing reported. *)
Theorem download_unusable_length w p version build r e :
  artifact_at w (Update.download_url version build) = DlOpened r ->
  int_of_header (content_length r) = Raise e ->
  let w' := snd (Update.download p version build w) in
  fst (Update.download p version build w) = Raise e /\
  did w w' = [Urlopen (Update.download_url version build)] /\
  files w' = files w /\
  faults w' = faults w /\
  forall e', ~ In (Traceback e') (said w w').
Proof.
  intros Ha He. cbv zeta.
  change (wp (Update.download p version build) (fun r w' =>
    r = Raise e /\
    did w w' = [Urlopen (Update.download_url version build)] /\
    files w' = files w /\
    faults w' = faults w /\
    forall e', ~ In (Traceback e') (said w w')) w).
  destruct w as [q i la aa ca fl c rq fs ts sk me]; proj.
  unfold Update.download.
  repeat wp_more.
  all: try congruence.
  split; [congruence|].
  split; [unfold did; proj; app_norm; now rewrite skipn_app_exact|].
  do 2 (split; [reflexivity|]).
  unfold said; proj; app_norm; rewrite skipn_app_exact.
  intros e'. destruct q; cbn [app In]; intuition discriminate.
Qed.

Lemma download_unusable_length_witness :
  (exists e, fst (Update.download DownloadData "1.16.5" "205" demo_no_length) = Raise e) /\
  files (snd (Update.download DownloadData "1.16.5" "205" demo_no_length))
  = files demo_no_length.
Proof.
  pose proof (download_unusable_length demo_no_length DownloadData "1.16.5" "205"
                _ _ eq_refl eq_refl) as H.
  cbv zeta in H. destruct H as (H1 & _ & H3 & _).
  split; [eexists; exact H1 | exact H3].
Defined.

Ltac wp_read :=
  lazymatch goal with
  | |- wp (match (if ?b then _ else _) with _ => _ end) _ _ => case_on b; red_goal
  | |- _ => wp_loop
  end.

Section LoopFault.

Variables (p : path) (prefix : string) (total step end_ : Z).
Variables (q : bool) (i : list string) (la : string -> fetch) (aa : string -> artifact)
          (ca : string -> config_file) (ts : nat) (me : ServerUpdater_obj).
Variables (k0 : nat) (e : exn).

Let loop_body : Z -> M unit :=
  fun j =>
    (fun _ : Z => byts <- sock_read (Z.to_nat Update.blocksize) ;; file_write p byts) j ;;
    unless_quiet
      (emit (StdoutWrite (Update.bar prefix 60 ((60 * (j + 1)) / total)
                                     (Update.shown total step end_ j) end_)) ;;
       emit StdoutFlush).

Lemma loop_fault_spec (Q : result unit -> world -> Prop) n :
  forall k c rq fs u cur,
    fs p = Some cur ->
    (k <= k0 < k + n)%nat ->
    (forall fs' c' rq' u',
        fs' p = Some (cur ++ firstn ((k0 - k) * block) u) ->
        (forall x, x <> p -> fs' x = fs x) ->
        c' = c ++ (if q then [] else progress_reports prefix total step end_ k (k0 - k)) ->
        rq' = rq ++ loop_calls p u (k0 - k) ++ [Read block] ->
        Q (Raise e)
          (mkWorld q i la aa ca [] c' rq' fs' ts (mkSocket u' (S k0) (Some (k0, e))) me)) ->
    wp (for_each (map Z.of_nat (seq k n)) loop_body) Q
       (mkWorld q i la aa ca [] c rq fs ts (mkSocket u k (Some (k0, e))) me).
Proof.
  induction n as [|m IH]; intros k c rq fs u cur Hp Hk HQ.
  - lia.
  - cbn [seq map for_each]. apply wp_bind. unfold loop_body at 1.
    cbv beta.
    destruct (Nat.eqb k0 k) eqn:Ek.
    + repeat wp_read.
      apply Nat.eqb_eq in Ek. subst k0.
      rewrite Nat.sub_diag in HQ.
      cbn [Nat.mul firstn loop_calls progress_reports seq flat_map app] in HQ.
      apply HQ; auto.
      * now rewrite app_nil_r.
      * destruct q; now rewrite app_nil_r.
    + repeat wp_read.
      all: apply Nat.eqb_neq in Ek.
      all: fold block; rewrite Hp.
      all: eapply (IH (S k) _ _ _ _ (cur ++ firstn block u));
        [ destruct p; reflexivity | lia | ].
      all: intros fs' c' rq' u' Hfs Hq -> ->.
      all: replace (k0 - k)%nat with (S (k0 - S k)) in HQ by lia.
      all: apply HQ.
      all: try (rewrite Hfs, <- app_assoc; f_equal; f_equal;
                change (S (k0 - S k) * block)%nat with (block + (k0 - S k) * block)%nat;
                now rewrite firstn_plus).
      all: try (intros x Hne; rewrite (Hq x Hne); destruct x, p; congruence).
      all: try (cbn [loop_calls app]; now rewrite <- !app_assoc).
      all: try (cbn [progress_reports seq flat_map app]; unfold progress_line;
                now rewrite <- !app_assoc).
      all: try now rewrite app_nil_r.
Qed.

End LoopFault.

(** X17. A read that fails in mid-stream, at read [k] of the loop, for a
    declared length [0 <= N < 2^53]: [download] returns false after
    reporting the error, and the destination is left with the [k] blocks
    written so far appended to it.  The calls are the request, the open,
    [k] reads with their writes, and the failing read. *)
Theorem download_interrupted w p version build r N k e :
  artifact_at w (Update.download_url version build) = DlOpened r ->
  int_of_header (content_length r) = Return N ->
  0 <= N < 2 ^ 53 ->
  read_fault r = Some (k, e) ->
  (k < Z.to_nat (total_steps N))%nat ->
  faults w = [] ->
  let w' := snd (Update.download p version build w) in
  fst (Update.download p version build w) = Return false /\
  files w' p = Some (match files w p with Some b => b | None => [] end
                     ++ firstn (k * block) (body r)) /\
  did w w' = Urlopen (Update.download_url version build) :: Open p
             :: loop_calls p (body r) k ++ [Read block] /\
  download_reported e (said w w').
Proof.
  intros Ha Hn Hbound Hf Hk Hfl. cbv zeta.
  change (wp (Update.download p version build) (fun res w' =>
    res = Return false /\
    files w' p = Some (match files w p with Some b => b | None => [] end
                       ++ firstn (k * block) (body r)) /\
    did w w' = Urlopen (Update.download_url version build) :: Open p
               :: loop_calls p (body r) k ++ [Read block] /\
    download_reported e (said w w')) w).
  destruct w as [q i la aa ca fl c rq fs ts sk me]; proj.
  subst fl.
  unfold Update.download.
  repeat wp_loop.
  all: unfold Update._progress_bar, range; apply wp_bind; rewrite Hf.
  all: fold (total_steps N).
  all: eapply loop_fault_spec; [ first [eassumption | destruct p; reflexivity] | lia | ].
  all: rewrite Nat.sub_0_r.
  all: intros fs' c' rq' u' Hfs Hq -> ->; cbv beta iota.
  all: repeat wp_loop.
  all: split; [reflexivity|].
  all: split; [ use_eqs; exact Hfs | ].
  all: split; [unfold did; proj; app_norm; now rewrite skipn_app_exact|].
  all: unfold said; proj; app_norm; rewrite skipn_app_exact.
  all: cbv beta in *; unfold download_reported; repeat split; find_in.
Qed.

Lemma download_interrupted_witness :
  fst (Update.download DownloadData "1.16.5" "205" demo_broken) = Return false /\
  files (snd (Update.download DownloadData "1.16.5" "205" demo_broken)) DownloadData
  = Some [].
Proof.
  pose proof (download_interrupted demo_broken DownloadData "1.16.5" "205"
                _ 5 0%nat _ eq_refl eq_refl ltac:(lia) eq_refl) as H.
  cbv zeta in H.
  assert (Hk : (0 < Z.to_nat (total_steps 5))%nat) by (vm_compute; lia).
  destruct (H Hk eq_refl) as (H1 & H2 & _).
  split; [exact H1 | exact H2].
Defined.

(** ** Selection *)

(** A goal [exists l, w' = ... (c ++ l) ... /\ _]: the lines printed. *)
Ltac ex_console :=
  app_norm;
  first [ eexists; split; [reflexivity|]
        | exists []; split; [now rewrite app_nil_r|] ].

Lemma select_spec val choice default name w :
  wp (ServerUpdater._select val choice default name) (fun r w' =>
    r = select_outcome val choice default (su_available_versions (self w)) /\
    exists l, w' = set_console (console w ++ l) w /\ prompts_of l = []) w.
Proof.
  destruct w as [q i la aa ca fl c rq fs ts sk me]; proj.
  unfold ServerUpdater._select, select_outcome.
  repeat wp_more.
  all: use_eqs; cbn [negb] in *; try discriminate.
  all: (split; [reflexivity|]).
  all: ex_console.
  all: destruct q; reflexivity.
Qed.

Lemma select_outcome_In val choice default available v :
  select_outcome val choice default available = Return (true, v) -> In v choice.
Proof.
  unfold select_outcome.
  destruct (String.eqb (if String.eqb val "" then default else val) "latest").
  - destruct (first available); [|discriminate].
    destruct choice; cbn [first]; [discriminate|].
    intros [= <-]. now left.
  - destruct (mem _ choice) eqn:E; [|discriminate].
    intros [= <-]. now apply mem_In.
Qed.

(** X18. Whatever [_select] accepts is one of the candidates. *)
Theorem select_picks_a_candidate val choice default name w v :
  fst (ServerUpdater._select val choice default name w) = Return (true, v) ->
  In v choice.
Proof.
  destruct (select_spec val choice default name w) as (Hr & _).
  rewrite Hr. apply select_outcome_In.
Qed.

Lemma select_picks_witness : In "1.16.4"%string ["1.16.5"%string; "1.16.4"%string].
Proof.
  apply (select_picks_a_candidate "1.16.4" ["1.16.5"%string; "1.16.4"%string]
                                  "latest" "version" demo_cached "1.16.4").
  reflexivity.
Defined.

Ltac wp_sel :=
  lazymatch goal with
  | |- wp (ServerUpdater._select _ _ _ _) _ ?w =>
      eapply wp_conseq; [apply select_spec|];
      let r := fresh "r" in
      let w' := fresh "w" in
      let l := fresh "l" in
      intros r w' (-> & l & -> & ?); red_goal
  | |- _ => wp_more
  end.

(** The loop reads on until a line is accepted. *)
Lemma ask_spec text choice default name v rest bad :
  forall w good,
    stdin w = bad ++ good :: rest ->
    Forall (fun b => select_outcome b choice default (su_available_versions (self w))
                     = Return (false, ""%string)) bad ->
    select_outcome good choice default (su_available_versions (self w)) = Return (true, v) ->
    wp (ServerUpdater.ask (stdin w) text choice default name) (fun r w' =>
      r = Return v /\
      exists l, w' = set_console (console w ++ l) (set_stdin rest w) /\
                prompts_of l = repeat text (S (List.length bad))) w.
Proof.
  induction bad as [|b bad IH]; intros w good Hi Hb Hg.
  - destruct w as [q i la aa ca fl c rq fs ts sk me]; proj. subst i.
    cbn [app ServerUpdater.ask].
    repeat wp_sel.
    all: cbn [fst snd] in *; try discriminate.
    split; [reflexivity|]. ex_console.
    unfold prompts_of in *. rewrite flat_map_app. cbn [flat_map app].
    match goal with H : flat_map _ _ = [] |- _ => rewrite H end. reflexivity.
  - destruct w as [q i la aa ca fl c rq fs ts sk me]; proj. subst i.
    cbn [app ServerUpdater.ask].
    inversion Hb as [|? ? Hb1 Hb2]; subst.
    repeat wp_sel.
    all: cbn [fst snd] in *; try discriminate.
    match goal with
    | |- wp _ _ ?w1 =>
        eapply wp_conseq; [apply (IH w1 good); proj; auto|]
    end.
    cbv beta. intros r w' (-> & l' & -> & Hl'). proj.
    split; [reflexivity|]. ex_console.
    unfold prompts_of in *. rewrite flat_map_app. cbn [flat_map app].
    rewrite flat_map_app.
    match goal with H : flat_map _ _ = [] |- _ => rewrite H end.
    cbn [app]. rewrite Hl'. reflexivity.
Qed.

(** X19. The prompt loop of [version_select]: lines that [_select] rejects
    are read and passed over, the first line it accepts decides, the lines
    after it stay on standard input, and there is one prompt per line
    read. *)
Theorem ask_reprompts text choice default name w bad good rest v :
  stdin w = bad ++ good :: rest ->
  Forall (fun b => select_outcome b choice default (su_available_versions (self w))
                   = Return (false, ""%string)) bad ->
  select_outcome good choice default (su_available_versions (self w)) = Return (true, v) ->
  let w' := snd (ServerUpdater.ask (stdin w) text choice default name w) in
  fst (ServerUpdater.ask (stdin w) text choice default name w) = Return v /\
  stdin w' = rest /\
  prompts_of (said w w') = repeat text (S (List.length bad)) /\
  files w' = files w /\ self w' = self w.
Proof.
  intros Hi Hb Hg. cbv zeta.
  destruct (ask_spec text choice default name v rest bad w good Hi Hb Hg)
    as (Hr & l & Hw & Hl).
  rewrite Hr, Hw. split; [reflexivity|].
  destruct w as [q i la aa ca fl c rq fs ts sk me]; proj.
  repeat split; auto.
  unfold said; proj. now rewrite skipn_app_exact.
Qed.

Lemma ask_reprompts_witness :
  let w := set_stdin ["1.17"%string; ""%string; "1.16.4"%string; "y"%string] demo_cached in
  fst (ServerUpdater.ask (stdin w) "Enter Version: " ["1.16.5"%string; "1.16.4"%string]
                         "latest" "version" w) = Return "1.16.5"%string /\
  stdin (snd (ServerUpdater.ask (stdin w) "Enter Version: "
                                ["1.16.5"%string; "1.16.4"%string] "latest" "version" w))
  = ["1.16.4"%string; "y"%string].
Proof.
  cbv zeta.
  pose proof (ask_reprompts "Enter Version: " ["1.16.5"%string; "1.16.4"%string]
                "latest" "version"
                (set_stdin ["1.17"%string; ""%string; "1.16.4"%string; "y"%string] demo_cached)
                ["1.17"%string] ""%string ["1.16.4"%string; "y"%string] "1.16.5"%string
                eq_refl) as H.
  cbv zeta in H.
  destruct H as (H1 & H2 & _).
  - repeat constructor.
  - reflexivity.
  - split; [exact H1 | exact H2].
Defined.

(** When every line left is rejected the loop ends in [EOFError]. *)
Lemma ask_eof_spec text choice default name bad :
  forall w,
    stdin w = bad ->
    Forall (fun b => select_outcome b choice default (su_available_versions (self w))
                     = Return (false, ""%string)) bad ->
    wp (ServerUpdater.ask (stdin w) text choice default name) (fun r w' =>
      r = Raise EOFError /\
      exists l, w' = set_console (console w ++ l) (set_stdin [] w) /\
                prompts_of l = repeat text (S (List.length bad))) w.
Proof.
  induction bad as [|b bad IH]; intros w Hi Hb.
  - destruct w as [q i la aa ca fl c rq fs ts sk me]; proj. subst i.
    cbn [app ServerUpdater.ask].
    repeat wp_sel.
    split; [reflexivity|]. ex_console. reflexivity.
  - destruct w as [q i la aa ca fl c rq fs ts sk me]; proj. subst i.
    cbn [app ServerUpdater.ask].
    inversion Hb as [|? ? Hb1 Hb2]; subst.
    repeat wp_sel.
    all: cbn [fst snd] in *; try discriminate.
    match goal with
    | |- wp _ _ ?w1 =>
        eapply wp_conseq; [apply (IH w1); proj; auto|]
    end.
    cbv beta. intros r w' (-> & l' & -> & Hl'). proj.
    split; [reflexivity|]. ex_console.
    unfold prompts_of in *. rewrite flat_map_app. cbn [flat_map app].
    rewrite flat_map_app.
    match goal with H : flat_map _ _ = [] |- _ => rewrite H end.
    cbn [app]. rewrite Hl'. reflexivity.
Qed.

(** X20. If every line left on standard input is rejected, the prompt loop
    ends in [EOFError], having prompted once per line and once more. *)
Theorem ask_input_ends text choice default name w :
  Forall (fun b => select_outcome b choice default (su_available_versions (self w))
                   = Return (false, ""%string)) (stdin w) ->
  let w' := snd (ServerUpdater.ask (stdin w) text choice default name w) in
  fst (ServerUpdater.ask (stdin w) text choice default name w) = Raise EOFError /\
  stdin w' = [] /\
  prompts_of (said w w') = repeat text (S (List.length (stdin w))) /\
  files w' = files w /\ self w' = self w.
Proof.
  intros Hb. cbv zeta.
  destruct (ask_eof_spec text choice default name (stdin w) w eq_refl Hb)
    as (Hr & l & Hw & Hl).
  rewrite Hr, Hw. split; [reflexivity|].
  destruct w as [q i la aa ca fl c rq fs ts sk me]; proj.
  repeat split; auto.
  unfold said; proj. now rewrite skipn_app_exact.
Qed.

Lemma ask_input_ends_witness :
  let w := set_stdin ["1.17"%string; "1.18"%string] demo_cached in
  fst (ServerUpdater.ask (stdin w) "Enter Version: " ["1.16.5"%string; "1.16.4"%string]
                         "latest" "version" w) = Raise EOFError.
Proof.
  cbv zeta.
  refine (proj1 (ask_input_ends "Enter Version: " ["1.16.5"%string; "1.16.4"%string]
                   "latest" "version"
                   (set_stdin ["1.17"%string; "1.18"%string] demo_cached) _)).
  repeat constructor.
Defined.

(** Whatever the input, the loop changes the console and standard input
    only, and what it returns is one of the candidates. *)
Lemma ask_any text choice default name lines :
  forall w,
    wp (ServerUpdater.ask lines text choice default name) (fun r w' =>
      (exists l i', w' = set_console (console w ++ l) (set_stdin i' w)) /\
      forall v, r = Return v -> In v choice) w.
Proof.
  induction lines as [|x lines IH]; intros w.
  - destruct w as [q i la aa ca fl c rq fs ts sk me]; proj.
    cbn [ServerUpdater.ask].
    repeat wp_sel.
    all: (split; [app_norm; do 2 eexists; reflexivity|]).
    all: intros v0 Hv; try discriminate.
    all: injection Hv as <-.
    all: match goal with
         | H : select_outcome _ _ _ _ = Return ?s, H' : fst ?s = true |- _ =>
             destruct s as [[|] s']; cbn [fst snd] in *; try discriminate;
             exact (select_outcome_In _ _ _ _ _ H)
         end.
  - destruct w as [q i la aa ca fl c rq fs ts sk me]; proj.
    cbn [ServerUpdater.ask].
    repeat wp_sel.
    all: try (split; [app_norm; do 2 eexists; reflexivity|];
              intros v0 Hv; try discriminate;
              injection Hv as <-;
              match goal with
              | H : select_outcome _ _ _ _ = Return ?s, H' : fst ?s = true |- _ =>
                  destruct s as [[|] s']; cbn [fst snd] in *; try discriminate;
                  exact (select_outcome_In _ _ _ _ _ H)
              end).
    all: match goal with
         | |- wp _ _ ?w1 => eapply wp_conseq; [apply (IH w1)|]
         end.
    all: cbv beta; intros r w' ((l' & i' & ->) & Hv); proj.
    all: (split; [app_norm; do 2 eexists; reflexivity | exact Hv]).
Qed.

Lemma for_each_print_talks {X} (l : list X) (f : X -> string) :
  talks (for_each l (fun i => print (f i))) (fun out => out = map (fun i => Print (f i)) l).
Proof.
  induction l as [|x l IH]; cbn [for_each map].
  - apply talks_ret.
  - eapply talks_weaken; [apply talks_bind; [apply talks_print | apply IH]|].
    cbv beta. intros out (l1 & l2 & -> & -> & ->). reflexivity.
Qed.

Ltac wp_ask :=
  lazymatch goal with
  | |- wp (ServerUpdater.ask _ _ _ _ _) _ ?w =>
      eapply wp_conseq; [apply ask_any|];
      let r := fresh "r" in
      let w' := fresh "w" in
      let l := fresh "l" in
      let i' := fresh "i" in
      intros r w' ((l & i' & ->) & ?); red_goal
  | |- wp (for_each _ (fun i => print _)) _ _ =>
      eapply wp_talks; [apply for_each_print_talks|]; intros ? ->; red_goal
  | |- _ => wp_sel
  end.

(** X21. What [version_select] returns was listed by the API: the version is in
    the cached version list and the build is in the build list delivered for
    that version. *)
Theorem version_select_picks_listed dv db w ver build :
  fst (ServerUpdater.version_select dv db w) = Return (Some (ver, build)) ->
  let w' := snd (ServerUpdater.version_select dv db w) in
  In ver (su_available_versions (self w')) /\
  exists nums,
    listing_at w (Update.listing_url (Some ver) None) = Opened (Return nums) /\
    In build nums.
Proof.
  cbv zeta.
  change (wp (ServerUpdater.version_select dv db) (fun r w' =>
    r = Return (Some (ver, build)) ->
    In ver (su_available_versions (self w')) /\
    exists nums,
      listing_at w (Update.listing_url (Some ver) None) = Opened (Return nums) /\
      In build nums) w).
  destruct w as [q i la aa ca fl c rq fs ts sk me]; proj.
  unfold ServerUpdater.version_select.
  repeat wp_ask.
  all: intros Hr; try discriminate.
  all: repeat match goal with
              | H : forall v, Return ?a = Return v -> _ |- _ => specialize (H a eq_refl)
              | H : select_outcome _ _ _ _ = Return ?s |- _ =>
                  destruct s as [[|] ?]; cbn [fst snd negb] in *; try discriminate;
                  apply select_outcome_In in H
              end.
  all: injection Hr as <- <-.
  all: split; [assumption | eexists; split; [eassumption | assumption]].
Qed.

Lemma version_select_picks_witness :
  In "205"%string ["205"%string; "204"%string].
Proof.
  pose proof (version_select_picks_listed "latest" "latest" demo "1.16.5" "205" eq_refl) as H.
  cbv zeta in H. destruct H as (_ & nums & Hn & Hin).
  injection Hn as <-. exact Hin.
Defined.

Lemma string_length_app (s1 s2 : string) :
  String.length (s1 ++ s2) = (String.length s1 + String.length s2)%nat.
Proof. induction s1; cbn [append String.length Nat.add]; auto. Qed.

(** The URL of a build list is never that of the version list. *)
Lemma listing_url_distinct v : Update.listing_url (Some v) None <> Update.listing_url None None.
Proof.
  unfold Update.listing_url. intros H.
  apply (f_equal String.length) in H.
  rewrite !string_length_app in H. cbn [String.length] in H. lia.
Qed.

(** X22. With a version list already cached, [version_select] does not ask for
    it again: it leaves the updater object and the files alone and makes at
    most one request, for the build list of a cached version. *)
Theorem version_select_uses_cache dv db w :
  su_available_versions (self w) <> [] ->
  let w' := snd (ServerUpdater.version_select dv db w) in
  self w' = self w /\
  files w' = files w /\
  ~ In (Urlopen (Update.listing_url None None)) (did w w') /\
  (did w w' = [] \/
   exists ver, In ver (su_available_versions (self w)) /\
               did w w' = [Urlopen (Update.listing_url (Some ver) None)]).
Proof.
  intros Hc. cbv zeta.
  cut (self (snd (ServerUpdater.version_select dv db w)) = self w /\
       files (snd (ServerUpdater.version_select dv db w)) = files w /\
       (did w (snd (ServerUpdater.version_select dv db w)) = [] \/
        exists ver, In ver (su_available_versions (self w)) /\
                    did w (snd (ServerUpdater.version_select dv db w))
                    = [Urlopen (Update.listing_url (Some ver) None)])).
  { intros (H1 & H2 & H3). repeat split; auto.
    destruct H3 as [-> | (ver & _ & ->)]; cbn [In]; [tauto|].
    intros [E | []]. apply (listing_url_distinct ver). congruence. }
  change (wp (ServerUpdater.version_select dv db) (fun r w' =>
    self w' = self w /\
    files w' = files w /\
    (did w w' = [] \/
     exists ver, In ver (su_available_versions (self w)) /\
                 did w w' = [Urlopen (Update.listing_url (Some ver) None)])) w).
  destruct w as [q i la aa ca fl c rq fs ts sk me]; proj.
  unfold ServerUpdater.version_select.
  destruct (su_available_versions me) as [|a0 avs] eqn:Ea; [congruence|].
  repeat wp_ask.
  all: do 2 (split; [reflexivity|]).
  all: repeat match goal with
              | H : forall v, Return ?a = Return v -> _ |- _ => specialize (H a eq_refl)
              | H : select_outcome _ _ _ _ = Return ?s |- _ =>
                  destruct s as [[|] ?]; cbn [fst snd negb] in *; try discriminate;
                  apply select_outcome_In in H
              end.
  all: rewrite ?Ea in *.
  all: first [ left; unfold did; proj; app_norm; rewrite ?app_nil_r;
               first [ now rewrite skipn_app_exact | now rewrite skipn_all ]
             | right; eexists; split; [eassumption|];
               unfold did; proj; app_norm; now rewrite skipn_app_exact ].
Qed.

Lemma version_select_uses_cache_witness :
  self (snd (ServerUpdater.version_select "latest" "latest" demo_cached)) = self demo_cached.
Proof.
  refine (proj1 (version_select_uses_cache "latest" "latest" demo_cached _)).
  simpl. discriminate.
Defined.

(** X23. With no version list cached, [version_select] first asks for it: the
    list delivered becomes the cache; a request that fails is reported and
    ends the selection with [None], the cache still empty. *)
Theorem version_select_loads_versions dv db w :
  su_available_versions (self w) = [] ->
  let r := fst (ServerUpdater.version_select dv db w) in
  let w' := snd (ServerUpdater.version_select dv db w) in
  (exists d, did w w' = Urlopen (Update.listing_url None None) :: d) /\
  match listing_at w (Update.listing_url None None) with
  | Opened (Return ids) => su_available_versions (self w') = ids
  | Opened (Raise e) | Misshapen e => r = Raise e /\ self w' = self w
  | OpenFails e => r = Return None /\ self w' = self w /\ fetch_reported e (said w w')
  end.
Proof.
  intros Hc. cbv zeta.
  change (wp (ServerUpdater.version_select dv db) (fun r w' =>
    (exists d, did w w' = Urlopen (Update.listing_url None None) :: d) /\
    match listing_at w (Update.listing_url None None) with
    | Opened (Return ids) => su_available_versions (self w') = ids
    | Opened (Raise e) | Misshapen e => r = Raise e /\ self w' = self w
    | OpenFails e => r = Return None /\ self w' = self w /\ fetch_reported e (said w w')
    end) w).
  destruct w as [q i la aa ca fl c rq fs ts sk me]; proj.
  unfold ServerUpdater.version_select.
  repeat wp_ask.
  all: try congruence.
  all: (split; [eexists; unfold did; proj; app_norm; rewrite skipn_app_exact; reflexivity|]).
  all: use_eqs.
  all: try reflexivity.
  all: try (split; reflexivity).
  all: repeat split.
  all: unfold said; proj; app_norm; rewrite skipn_app_exact; cbv beta in *; find_in.
Qed.

Lemma version_select_loads_witness :
  su_available_versions (self (snd (ServerUpdater.version_select "latest" "latest" demo)))
  = ["1.16.5"%string; "1.16.4"%string].
Proof.
  pose proof (version_select_loads_versions "latest" "latest" demo eq_refl) as H.
  cbv zeta in H. exact (proj2 H).
Defined.

(** ** The confirmation *)

Lemma lower_char_n c :
  Ascii.eqb (lower_char c) "n" = Ascii.eqb c "n" || Ascii.eqb c "N".
Proof. destruct c as [[] [] [] [] [] [] [] []]; reflexivity. Qed.

Lemma lower_char_o c :
  Ascii.eqb (lower_char c) "o" = Ascii.eqb c "o" || Ascii.eqb c "O".
Proof. destruct c as [[] [] [] [] [] [] [] []]; reflexivity. Qed.

Lemma lower_declines line : mem (lower line) ["n"; "no"] = declines line.
Proof.
  unfold declines, mem.
  destruct line as [|c1 [|c2 [|c3 rest]]]; cbn [lower existsb String.eqb].
  - reflexivity.
  - rewrite lower_char_n.
    destruct (Ascii.eqb c1 "n"), (Ascii.eqb c1 "N"); reflexivity.
  - rewrite lower_char_n, lower_char_o.
    destruct (Ascii.eqb c1 "n"), (Ascii.eqb c1 "N"), (Ascii.eqb c2 "o"), (Ascii.eqb c2 "O");
      reflexivity.
  - rewrite lower_char_n, lower_char_o.
    destruct (Ascii.eqb c1 "n"), (Ascii.eqb c1 "N"), (Ascii.eqb c2 "o"), (Ascii.eqb c2 "O");
      reflexivity.
Qed.

(** X24. The confirmation of [get_new]: without [-i] nothing is asked; with it
    one line is read and only [n] and [no], in any mix of upper and lower
    case, cancel; at the end of input [EOFError] is raised.  Files, updater
    object and call trace are untouched. *)
Theorem confirm_outcome w :
  let w' := snd (ServerUpdater.confirm w) in
  fst (ServerUpdater.confirm w)
  = (if su_prompt (self w) then
       match stdin w with
       | [] => Raise EOFError
       | line :: _ => Return (negb (declines line))
       end
     else Return true) /\
  stdin w' = (if su_prompt (self w) then tl (stdin w) else stdin w) /\
  files w' = files w /\ self w' = self w /\ calls w' = calls w.
Proof.
  cbv zeta.
  change (wp ServerUpdater.confirm (fun r w' =>
    r = (if su_prompt (self w) then
           match stdin w with
           | [] => Raise EOFError
           | line :: _ => Return (negb (declines line))
           end
         else Return true) /\
    stdin w' = (if su_prompt (self w) then tl (stdin w) else stdin w) /\
    files w' = files w /\ self w' = self w /\ calls w' = calls w) w).
  destruct w as [q i la aa ca fl c rq fs ts sk me]; proj.
  unfold ServerUpdater.confirm.
  repeat wp_more.
  all: use_eqs.
  all: repeat split.
  all: match goal with
       | H : mem (lower _) _ = _ |- _ => rewrite lower_declines in H; now rewrite H
       end.
Qed.

(** ** What a run leaves alone *)

Section Preserves.

Context {X : Type} (obs : world -> X).

Lemma preserves_ret {A} (a : A) : preserves obs (ret a).
Proof. intros w. reflexivity. Qed.

Lemma preserves_raise {A} e : preserves obs (@raise A e).
Proof. intros w. reflexivity. Qed.

Lemma preserves_lift {A} (r : result A) : preserves obs (lift r).
Proof. intros w. reflexivity. Qed.

Lemma preserves_get {A} (f : world -> A) : preserves obs (get f).
Proof. intros w. reflexivity. Qed.

Lemma preserves_bind {A B} (m : M B) (k : B -> M A) :
  preserves obs m -> (forall b, preserves obs (k b)) -> preserves obs (bind m k).
Proof.
  intros Hm Hk w. unfold bind. specialize (Hm w).
  destruct (m w) as [[b|e] w1]; cbn in *; auto.
  rewrite <- Hm. apply Hk.
Qed.

Lemma preserves_try {A} (m : M A) (h : exn -> M A) :
  preserves obs m -> (forall e, preserves obs (h e)) -> preserves obs (try_except m h).
Proof.
  intros Hm Hh w. unfold try_except. specialize (Hm w).
  destruct (m w) as [[a|e] w1]; cbn in *; auto.
  rewrite <- Hm. apply Hh.
Qed.

Lemma preserves_modify f : (forall w, obs (f w) = obs w) -> preserves obs (modify f).
Proof. intros Hf w. apply Hf. Qed.

Lemma preserves_unless_quiet m : preserves obs m -> preserves obs (unless_quiet m).
Proof.
  intros Hm w. unfold unless_quiet. destruct (negb (quiet w)); [apply Hm | reflexivity].
Qed.

Lemma preserves_for_each {Y} (l : list Y) body :
  (forall x, preserves obs (body x)) -> preserves obs (for_each l body).
Proof.
  intros Hb. induction l; cbn [for_each].
  - apply preserves_ret.
  - apply preserves_bind; auto.
Qed.

Hypothesis obs_console : forall c w, obs (set_console c w) = obs w.

Lemma preserves_talks m P : talks m P -> preserves obs m.
Proof. intros H w. destruct (H w) as (l & E & _). rewrite E. apply obs_console. Qed.

Hypothesis obs_stdin : forall i w, obs (set_stdin i w) = obs w.

Lemma preserves_ask lines text choice default name :
  preserves obs (ServerUpdater.ask lines text choice default name).
Proof.
  intros w. destruct (ask_any text choice default name lines w) as ((l & i' & E) & _).
  rewrite E, obs_console. apply obs_stdin.
Qed.

End Preserves.

Lemma preserves_next_fault {X} (obs : world -> X) :
  (forall f w, obs (set_faults f w) = obs w) -> preserves obs next_fault.
Proof.
  intros Hf w. unfold next_fault. destruct (faults w) eqn:E; cbn [snd]; auto.
Qed.

Ltac obs_refl := intros; match goal with w : world |- _ => destruct w; reflexivity end.

Ltac pres :=
  lazymatch goal with
  | |- preserves _ (bind _ _) => apply preserves_bind; [ | intros ? ]
  | |- preserves _ (try_except _ _) => apply preserves_try; [ | intros ? ]
  | |- preserves _ (ret _) => apply preserves_ret
  | |- preserves _ (raise _) => apply preserves_raise
  | |- preserves _ (lift _) => apply preserves_lift
  | |- preserves _ (get _) => apply preserves_get
  | |- preserves _ (modify _) => apply preserves_modify; obs_refl
  | |- preserves _ next_fault => apply preserves_next_fault; obs_refl
  | |- preserves _ (for_each _ _) => apply preserves_for_each; intros ?
  | |- preserves _ (unless_quiet _) => apply preserves_unless_quiet
  | |- preserves _ (error_report _ _) =>
      eapply preserves_talks; [obs_refl | apply error_report_talks]
  | |- preserves _ (Update._url_report _) =>
      eapply preserves_talks; [obs_refl | apply url_report_talks]
  | |- preserves _ (ServerUpdater.ask _ _ _ _ _) => apply preserves_ask; obs_refl
  | |- preserves _ (match ?x with _ => _ end) => destruct x
  | |- preserves _ (if ?x then _ else _) => destruct x
  | |- preserves _ (let _ := _ in _) => cbv zeta
  | |- preserves _ (let (_, _) := ?x in _) => destruct x
  | |- preserves _ ?m => let h := head_of m in unfold h
  end.

Lemma target_version_select dv db : preserves target_file (ServerUpdater.version_select dv db).
Proof. repeat pres. Qed.

Lemma target_confirm : preserves target_file ServerUpdater.confirm.
Proof. repeat pres. Qed.

Lemma target_stage : preserves target_file ServerUpdater.stage.
Proof. repeat pres. Qed.

Lemma target_download v b : preserves target_file (Update.download DownloadData v b).
Proof. repeat pres. Qed.

(** X25. [get_new] changes the server jar in [install] only: on every course
    that does not reach it (no selection, a declined confirmation, a failed
    download, an exception) the target is what it was, and download leaves
    it alone; after [install] the original is at the target or in the
    backup, or the target holds what was downloaded. *)
Theorem get_new_touches_target_in_install_only dv db w :
  let w' := snd (ServerUpdater.get_new dv db w) in
  match ServerUpdater.version_select dv db w with
  | (Return (Some (ver, build)), w1) =>
      match ServerUpdater.confirm w1 with
      | (Return true, w2) =>
          match ServerUpdater.stage w2 with
          | (Return _, w3) =>
              match Update.download DownloadData ver build w3 with
              | (Return true, w4) =>
                  files w4 Target = files w Target /\
                  (files w' Target = files w Target \/
                   files w' Backup = files w Target \/
                   files w' Target = files w4 DownloadData)
              | _ => files w' Target = files w Target
              end
          | _ => files w' Target = files w Target
          end
      | _ => files w' Target = files w Target
      end
  | _ => files w' Target = files w Target
  end.
Proof.
  cbv zeta. unfold ServerUpdater.get_new, bind, ret.
  pose proof (target_version_select dv db w) as K1.
  destruct (ServerUpdater.version_select dv db w) as [[[[ver build]|]|e] w1];
    cbn [fst snd] in *; auto.
  pose proof (target_confirm w1) as K2.
  destruct (ServerUpdater.confirm w1) as [[[|]|e] w2]; cbn [fst snd negb] in *;
    try (unfold target_file in *; congruence).
  pose proof (target_stage w2) as K3.
  destruct (ServerUpdater.stage w2) as [[[]|e] w3]; cbn [fst snd] in *;
    try (unfold target_file in *; congruence).
  pose proof (target_download ver build w3) as K4.
  destruct (Update.download DownloadData ver build w3) as [[[|]|e] w4];
    cbn [fst snd negb] in *; try (unfold target_file in *; congruence).
  assert (E : files w4 Target = files w Target) by (unfold target_file in *; congruence).
  split; [exact E|].
  destruct (install_cases w4) as (l & d & _ & _ & _ & H).
  assert (Hi : files (snd (FileUtil.install w4)) Target = files w4 Target \/
               files (snd (FileUtil.install w4)) Backup = files w4 Target \/
               files (snd (FileUtil.install w4)) Target = files w4 DownloadData)
    by (destruct H as [H | [H | H]]; tauto).
  clear H.
  destruct (FileUtil.install w4) as [[[|]|e] w5]; cbn [fst snd negb] in *.
  - destruct w5 as [q i la aa ca fl c rq fs ts sk me].
    unfold output, unless_quiet, print, emit, modify.
    cbn in *. rewrite <- E. destruct q; exact Hi.
  - rewrite <- E. exact Hi.
  - rewrite <- E. exact Hi.
Qed.

(** ** Start-up and the script *)

Lemma wp_frame {A X} (obs : world -> X) (m : M A) (Q : result A -> world -> Prop) w :
  preserves obs m ->
  (forall r w', obs w' = obs w -> Q r w') ->
  wp m Q w.
Proof. intros Hm HQ. apply HQ. apply Hm. Qed.

Lemma outside_load_config config : preserves outside (FileUtil.load_config config).
Proof. repeat pres. Qed.

Ltac pres_out :=
  lazymatch goal with
  | |- preserves _ (FileUtil.load_config _) => apply outside_load_config
  | |- _ => pres
  end.

Lemma outside_start config : preserves outside (ServerUpdater._start config).
Proof. unfold ServerUpdater._start. repeat pres_out. Qed.

Lemma outside_init path config_file version build config prompt :
  preserves outside (ServerUpdater.__init__ path config_file version build config prompt).
Proof. unfold ServerUpdater.__init__. repeat pres_out. Qed.

Lemma outside_check : preserves outside ServerUpdater.check.
Proof. repeat pres. Qed.

Lemma check_spec w :
  wp ServerUpdater.check (fun r w' =>
    r = check_outcome (listing_at w) (su_version (self w)) (su_buildnum (self w)) /\
    exists l d, w' = logged l d w) w.
Proof.
  destruct w as [q i la aa ca fl c rq fs ts sk me]; proj.
  unfold ServerUpdater.check, check_outcome, newest, logged.
  repeat wp_more.
  all: (split; [use_eqs; reflexivity|]).
  all: proj; app_norm; do 2 eexists; reflexivity.
Qed.

(** X28. With [-c] the script checks and stops: no file is touched, no file
    operation is made, no temporary directory is created. *)
Theorem main_check_only args w :
  arg_check_only args = true ->
  storage (snd (main args w)) = storage w.
Proof.
  intros Hc.
  assert (H : preserves outside (main args)).
  { unfold main. rewrite Hc. cbn [negb andb].
    repeat pres_out. }
  specialize (H w). unfold outside in H. congruence.
Qed.

Lemma main_check_only_witness :
  storage (snd (main (with_check_only demo_args) demo)) = storage demo.
Proof. apply main_check_only. reflexivity. Defined.


Ltac wp_main :=
  lazymatch goal with
  | |- wp (ServerUpdater.__init__ _ _ _ _ _ _) _ ?w =>
      apply (wp_frame outside); [apply outside_init|];
      let r := fresh "r" in
      let w' := fresh "w" in
      let H := fresh "H" in
      intros r w' H;
      destruct w' as [? ? ? ? ? ? ? ? ? ? ? ?];
      unfold outside, storage in H; proj;
      injection H as -> -> -> ->;
      destruct r; red_goal
  | |- wp ServerUpdater.check _ ?w =>
      eapply wp_conseq; [apply check_spec|];
      let r := fresh "r" in
      let w' := fresh "w" in
      intros r w' (-> & ? & ? & ->); unfold logged; proj; red_goal
  | |- _ => wp_more
  end.



Lemma load_config_spec config w :
  wp (FileUtil.load_config config) (fun r w' =>
    r = config_outcome (config_at w (FileUtil.config_path (su_fileutil (self w)) config)) /\
    exists l, w' = set_console (console w ++ l) w) w.
Proof.
  destruct w as [q i la aa ca fl c rq fs ts sk me]; proj.
  unfold FileUtil.load_config, config_outcome.
  repeat wp_more.
  all: (split; [reflexivity|]).
  all: app_norm; eexists; reflexivity.
Qed.

Ltac wp_cfg :=
  lazymatch goal with
  | |- wp (FileUtil.load_config _) _ ?w =>
      eapply wp_conseq; [apply load_config_spec|];
      let r := fresh "r" in
      let w' := fresh "w" in
      intros r w' (-> & ? & ->); proj; red_goal
  | |- _ => wp_main
  end.

(** X26. What [_start] makes of the configuration file: its version replaces
    an installed version ['0'], its build replaces the integer 0 only (a
    build given as a string is kept, ['0'] included); an exception of
    [load_config] leaves [_start] with the object unchanged; the file
    system is not touched. *)
Theorem start_reads_config w :
  let me := self w in
  let w' := snd (ServerUpdater._start true w) in
  match config_outcome (config_at w (FileUtil.config_path (su_fileutil me) (su_config_file me))) with
  | Return (v, b) =>
      fst (ServerUpdater._start true w) = Return tt /\
      su_version (self w') = (if String.eqb (su_version me) "0" then v else su_version me) /\
      su_buildnum (self w') = match su_buildnum me with
                              | BInt 0 => BInt b
                              | given => given
                              end
  | Raise e =>
      fst (ServerUpdater._start true w) = Raise e /\ self w' = self w
  end /\
  storage w' = storage w.
Proof.
  cbv zeta.
  change (wp (ServerUpdater._start true) (fun r w' =>
    match config_outcome (config_at w (FileUtil.config_path (su_fileutil (self w))
                                                           (su_config_file (self w)))) with
    | Return (v, b) =>
        r = Return tt /\
        su_version (self w')
        = (if String.eqb (su_version (self w)) "0" then v else su_version (self w)) /\
        su_buildnum (self w') = match su_buildnum (self w) with
                                | BInt 0 => BInt b
                                | given => given
                                end
    | Raise e => r = Raise e /\ self w' = self w
    end /\
    storage w' = storage w) w).
  destruct w as [q i la aa ca fl c rq fs ts sk me]; proj.
  unfold ServerUpdater._start.
  repeat wp_cfg.
  all: (split; [|reflexivity]).
  all: use_eqs.
  all: try (split; reflexivity).
  all: match goal with a : (string * Z)%type |- _ => destruct a as [v b] end.
  all: destruct me as [v0 b0 av pr cf fu].
  all: cbn [su_version su_buildnum with_installed fst snd] in *.
  all: repeat split.
  all: try (destruct (String.eqb v0 "0"); reflexivity).
  all: destruct b0 as [[| |]|]; reflexivity.
Qed.

Lemma default_version_stays v : (if negb (String.eqb v "0") then v else "0"%string) = v.
Proof. destruct (String.eqb_spec v "0"); cbn [negb]; congruence. Qed.

Lemma default_build_stays b :
  (if ServerUpdater.buildid_nonzero b then b else BInt 0) = b.
Proof. destruct b as [[| |]|]; reflexivity. Qed.

(** X27. The values the caller gives stand: a version other than ['0'] with a
    build other than the integer 0 is not replaced, and nothing is when the
    configuration file is not to be read. *)
Theorem start_keeps_explicit_values config w :
  config = false \/
  (su_version (self w) <> "0"%string /\ ServerUpdater.buildid_nonzero (su_buildnum (self w)) = true) ->
  let w' := snd (ServerUpdater._start config w) in
  installed w' = installed w /\
  storage w' = storage w /\
  (config = false -> fst (ServerUpdater._start config w) = Return tt).
Proof.
  intros H. cbv zeta.
  change (wp (ServerUpdater._start config) (fun r w' =>
    installed w' = installed w /\
    storage w' = storage w /\
    (config = false -> r = Return tt)) w).
  destruct w as [q i la aa ca fl c rq fs ts sk me]; proj.
  unfold ServerUpdater._start.
  destruct me as [v0 b0 av pr cf fu]; cbn [su_version su_buildnum] in *.
  repeat wp_cfg.
  all: cbn [su_version su_buildnum with_installed fst snd] in *.
  all: unfold installed; proj; cbn [su_version su_buildnum with_installed fst snd].
  all: (split; [|split; [reflexivity|]]); try (intros; reflexivity); try discriminate.
  all: try reflexivity.
  all: destruct H as [H | [Hv Hb]]; try discriminate.
  all: rewrite ?default_version_stays, ?default_build_stays; try reflexivity.
  apply String.eqb_neq in Hv. now rewrite Hv, Hb.
Qed.

Lemma start_keeps_explicit_witness :
  installed (snd (ServerUpdater._start true demo)) = installed demo.
Proof.
  refine (proj1 (start_keeps_explicit_values true demo _)).
  right. split; [discriminate | reflexivity].
Defined.

Ltac wp_run :=
  lazymatch goal with
  | |- wp (ServerUpdater.__init__ _ _ _ _ _ _) _ _ =>
      unfold ServerUpdater.__init__ at 1; red_goal
  | |- wp (ServerUpdater._start _) _ _ =>
      unfold ServerUpdater._start at 1; red_goal
  | |- _ => wp_cfg
  end.

Lemma check_outcome_same la v b vs bs :
  la (Update.listing_url None None) = Opened (Return (v :: vs)) ->
  la (Update.listing_url (Some v) None) = Opened (Return (str_of_buildid b :: bs)) ->
  check_outcome la v b = Return false.
Proof.
  intros H1 H2. unfold check_outcome, newest. rewrite H1. cbn [first].
  rewrite String.eqb_refl, H2. cbn [first]. now rewrite String.eqb_refl.
Qed.

(** X30. Told the installed version and build on the command line, with the
    configuration file left alone, the script finds nothing to do when the
    API lists that version and that build first: it returns, the file
    system untouched, the installed state as given. *)
Theorem main_up_to_date args w vs bs :
  arg_no_check args = false ->
  arg_no_load_config args = false ->
  listing_at w (Update.listing_url None None) = Opened (Return (arg_iv args :: vs)) ->
  listing_at w (Update.listing_url (Some (arg_iv args)) None)
  = Opened (Return (str_of_buildid (arg_ib args) :: bs)) ->
  let w' := snd (main args w) in
  fst (main args w) = Return tt /\
  storage w' = storage w /\
  installed w' = (arg_iv args, arg_ib args).
Proof.
  intros Hn Hc H1 H2. cbv zeta.
  change (wp (main args) (fun r w' =>
    r = Return tt /\ storage w' = storage w /\
    installed w' = (arg_iv args, arg_ib args)) w).
  destruct w as [q i la aa ca fl c rq fs ts sk me]; proj.
  unfold main.
  repeat wp_run.
  all: cbn [su_version su_buildnum with_installed fst snd] in *.
  all: rewrite ?default_version_stays, ?default_build_stays in *.
  all: match goal with
       | H : check_outcome _ _ _ = _ |- _ =>
           rewrite (check_outcome_same _ _ _ _ _ H1 H2) in H
       end.
  all: try discriminate.
  all: match goal with H : Return _ = Return _ |- _ => injection H as <- end.
  all: try (rewrite andb_false_r in *; discriminate).
  all: repeat split.
Qed.

Lemma main_up_to_date_witness :
  fst (main demo_told_args demo) = Return tt /\
  storage (snd (main demo_told_args demo)) = storage demo.
Proof.
  pose proof (main_up_to_date demo_told_args demo ["1.16.4"%string] ["204"%string]
                eq_refl eq_refl eq_refl eq_refl) as H.
  cbv zeta in H. destruct H as (Hr & Hs & _). split; [exact Hr | exact Hs].
Defined.

(** ** The official version string *)

(** ** Strings *)

Lemma split_once_app sep a b :
  lacks sep a = true -> split_once sep (a ++ String sep b) = [a; b].
Proof.
  induction a as [|c a IH]; cbn [append split_once lacks].
  - now rewrite Ascii.eqb_refl.
  - intros H. apply andb_prop in H as [Hc Ha].
    apply negb_true_iff in Hc. rewrite Hc, (IH Ha). reflexivity.
Qed.

Lemma split_once_lacks sep s : lacks sep s = true -> split_once sep s = [s].
Proof.
  induction s as [|c s IH]; cbn [split_once lacks]; auto.
  intros H. apply andb_prop in H as [Hc Hs].
  apply negb_true_iff in Hc. now rewrite Hc, (IH Hs).
Qed.

Lemma split_all_lacks sep s : lacks sep s = true -> split_all sep s = [s].
Proof.
  induction s as [|c s IH]; cbn [split_all lacks]; auto.
  intros H. apply andb_prop in H as [Hc Hs].
  apply negb_true_iff in Hc. now rewrite Hc, (IH Hs).
Qed.

Lemma split_all_last sep pre d :
  lacks sep d = true ->
  exists h t, split_all sep (pre ++ String sep d) = (h :: t) ++ [d].
Proof.
  intros Hd. induction pre as [|c pre (h & t & IH)]; cbn [append split_all].
  - rewrite Ascii.eqb_refl, (split_all_lacks _ _ Hd). exists "", []. reflexivity.
  - rewrite IH. destruct (Ascii.eqb c sep).
    + exists "", (h :: t). reflexivity.
    + exists (String c h), t. reflexivity.
Qed.

Lemma lacks_app sep a b : lacks sep (a ++ b) = lacks sep a && lacks sep b.
Proof.
  induction a as [|c a IH]; cbn [append lacks]; auto.
  now rewrite IH, andb_assoc.
Qed.

Lemma string_app_assoc (a b c : string) : ((a ++ b) ++ c = a ++ (b ++ c))%string.
Proof. induction a; cbn [append]; congruence. Qed.

Lemma substring_prefix v s : substring 0 (String.length v) (v ++ s) = v.
Proof.
  induction v as [|c v IH]; cbn [String.length append substring].
  - destruct s; reflexivity.
  - now rewrite IH.
Qed.

(** The version inside the parentheses. *)
Lemma slice_version v : py_slice ("(MC: " ++ v ++ ")") 5 (-1) = v.
Proof.
  unfold py_slice. cbn [append String.length].
  rewrite string_length_app. cbn [String.length].
  unfold slice_bound.
  replace (5 <? 0) with false by reflexivity.
  replace (-1 <? 0) with true by reflexivity.
  set (n := String.length v).
  replace (Z.to_nat (Z.min 5 (Z.of_nat (S (S (S (S (S (n + 1)))))))))
    with 5%nat by lia.
  replace (Z.to_nat (Z.max 0 (-1 + Z.of_nat (S (S (S (S (S (n + 1))))))) -
                     Z.min 5 (Z.of_nat (S (S (S (S (S (n + 1)))))))))
    with n by lia.
  cbn [substring]. apply substring_prefix.
Qed.

(** ** Decimal numerals *)

Lemma digits_lack sep d :
  digit_of sep = None -> lacks sep (NilEmpty.string_of_uint d) = true.
Proof.
  intros Hs. induction d; cbn [NilEmpty.string_of_uint lacks]; auto.
  all: rewrite IHd, andb_true_r; apply negb_true_iff, Ascii.eqb_neq.
  all: intros <-; discriminate Hs.
Qed.

Lemma digits_lstrip d :
  lstrip (NilEmpty.string_of_uint d) = NilEmpty.string_of_uint d.
Proof. destruct d; reflexivity. Qed.

Lemma digits_rstrip d :
  rstrip (NilEmpty.string_of_uint d) = NilEmpty.string_of_uint d.
Proof.
  induction d; cbn [NilEmpty.string_of_uint rstrip]; auto.
  all: rewrite IHd; destruct (NilEmpty.string_of_uint d); reflexivity.
Qed.

Lemma parse_digits_acc d :
  forall acc,
    parse_digits (NilEmpty.string_of_uint d) (Z.pos acc) true
    = Some (Z.pos (Pos.of_uint_acc d acc)).
Proof.
  induction d; intros acc; cbn [NilEmpty.string_of_uint Pos.of_uint_acc]; auto.
  all: unfold parse_digits; fold parse_digits.
  all: match goal with
       | |- context [digit_of ?c] =>
           let v := eval vm_compute in (digit_of c) in
           change (digit_of c) with v; cbv beta iota
       end.
  all: rewrite <- IHd; f_equal; lia.
Qed.

Lemma parse_digits_value d :
  forall b, d <> Decimal.Nil \/ b = true ->
    parse_digits (NilEmpty.string_of_uint d) 0 b = Some (Z.of_N (Pos.of_uint d)).
Proof.
  induction d; intros b Hb; cbn [NilEmpty.string_of_uint Pos.of_uint].
  1: { destruct Hb as [Hb | ->]; [congruence | reflexivity]. }
  1: { unfold parse_digits; fold parse_digits.
       change (digit_of "0"%char) with (Some 0); cbv beta iota.
       change (10 * 0 + 0) with 0. apply IHd. now right. }
  all: unfold parse_digits; fold parse_digits.
  all: match goal with
       | |- context [digit_of ?c] =>
           let v := eval vm_compute in (digit_of c) in
           change (digit_of c) with v; cbv beta iota
       end.
  all: match goal with
       | |- parse_digits _ ?z true = _ =>
           let v := eval vm_compute in z in change z with v
       end.
  all: apply parse_digits_acc.
Qed.

Lemma int_of_digits d :
  d <> Decimal.Nil -> int_of_str (NilEmpty.string_of_uint d) = Some (Z.of_N (Pos.of_uint d)).
Proof.
  intros Hd. unfold int_of_str. rewrite digits_lstrip, digits_rstrip.
  rewrite <- (parse_digits_value d false) by now left.
  destruct d; try congruence; reflexivity.
Qed.

Lemma string_of_uint_nonnil d :
  d <> Decimal.Nil -> NilZero.string_of_uint d = NilEmpty.string_of_uint d.
Proof. destruct d; [congruence | reflexivity ..]. Qed.

(** [int(str(n)) == n] for the build numbers of the API. *)
Lemma int_of_str_of_Z n : 0 <= n -> int_of_str (str_of_Z n) = Some n.
Proof.
  intros Hn. unfold str_of_Z. destruct n as [|p|p]; [reflexivity| |lia].
  cbn [Z.to_int NilZero.string_of_int].
  pose proof (DecimalPos.Unsigned.to_uint_nonnil p) as Hp.
  rewrite (string_of_uint_nonnil _ Hp), (int_of_digits _ Hp), DecimalPos.Unsigned.of_to.
  reflexivity.
Qed.

Lemma str_of_Z_lacks sep n :
  0 <= n -> digit_of sep = None -> lacks sep (str_of_Z n) = true.
Proof.
  intros Hn Hs. destruct n as [|p|p]; [|  |lia]; [|unfold str_of_Z].
  - change (str_of_Z 0) with (NilEmpty.string_of_uint (Decimal.D0 Decimal.Nil)).
    now apply digits_lack.
  - cbn [Z.to_int NilZero.string_of_int].
    pose proof (DecimalPos.Unsigned.to_uint_nonnil p) as Hp.
    rewrite (string_of_uint_nonnil _ Hp). now apply digits_lack.
Qed.

(** The official format reads back: for a first word without spaces
    that ends in a dash and the build number, followed by the version in
    ["(MC: ...)"], the parse returns that version and that number. *)
Lemma parse_current_official_format pre n v :
  lacks " " pre = true ->
  0 <= n ->
  FileUtil.parse_current (pre ++ "-" ++ str_of_Z n ++ " (MC: " ++ v ++ ")")
  = Return (v, n).
Proof.
  intros Hp Hn. unfold FileUtil.parse_current.
  assert (Hw : lacks " " (pre ++ "-" ++ str_of_Z n) = true).
  { rewrite lacks_app, Hp. cbn [append lacks].
    rewrite (str_of_Z_lacks " " n Hn eq_refl). reflexivity. }
  replace (pre ++ "-" ++ str_of_Z n ++ " (MC: " ++ v ++ ")")%string
    with ((pre ++ "-" ++ str_of_Z n) ++ String " " ("(MC: " ++ v ++ ")"))%string.
  2:{ rewrite string_app_assoc. reflexivity. }
  rewrite (split_once_app _ _ _ Hw).
  destruct (split_all_last "-" pre (str_of_Z n) (str_of_Z_lacks "-" n Hn eq_refl))
    as (h & t & E).
  change (pre ++ "-" ++ str_of_Z n)%string with (pre ++ String "-" (str_of_Z n))%string.
  rewrite E, last_last, (int_of_str_of_Z n Hn), slice_version. reflexivity.
Qed.

(** X9. Without a space there is nothing to unpack into build and version:
    the parse raises [ValueError], whatever else the string holds. *)
Theorem parse_current_needs_space s :
  lacks " " s = true ->
  FileUtil.parse_current s
  = Raise (ValueError "not enough values to unpack (expected 2, got 1)").
Proof.
  intros H. unfold FileUtil.parse_current. now rewrite (split_once_lacks _ _ H).
Qed.

Lemma parse_current_needs_space_witness :
  FileUtil.parse_current "1.16.5"
  = Raise (ValueError "not enough values to unpack (expected 2, got 1)").
Proof. apply parse_current_needs_space. reflexivity. Defined.

(** X8. The official format reads back: when [currentVersion] is a first word
    without spaces ending in a dash and the decimal build number [n >= 0],
    followed by [(MC: v)], [load_config] returns the version [v] and the
    integer [n]. *)
Theorem load_config_reads_official_format config w kv pre n v :
  config_at w (FileUtil.config_path (su_fileutil (self w)) config) = Loads (JDict kv) ->
  assoc "currentVersion" kv
  = Some (JStr (pre ++ "-" ++ str_of_Z n ++ " (MC: " ++ v ++ ")")) ->
  lacks " " pre = true ->
  0 <= n ->
  fst (FileUtil.load_config config w) = Return (v, n).
Proof.
  intros Hc Hk Hp Hn. rewrite load_config_outcome, Hc. unfold config_outcome, getitem.
  now rewrite Hk, (parse_current_official_format pre n v Hp Hn).
Qed.

Lemma load_config_reads_official_witness :
  fst (FileUtil.load_config None demo) = Return ("1.16.5"%string, 205).
Proof.
  apply (load_config_reads_official_format None demo
           [("currentVersion"%string, JStr "build-205 (MC: 1.16.5)")] "build" 205 "1.16.5");
    [reflexivity | reflexivity | reflexivity | lia].
Defined.

(** A witness of X6: there is no configuration file. *)
Lemma load_config_sentinel_witness :
  fst (FileUtil.load_config None (demo_with_config NotAFile)) = Return ("0"%string, 0).
Proof.
  apply (load_config_sentinel None (demo_with_config NotAFile)). left. reflexivity.
Defined.
